(** * restore-exif-iOS: restoring capture dates of WhatsApp media

    A shallow embedding of [restore-exif-iOS.py] and the properties of its
    filename parser, classifier, enumerator, extension filter and per-file
    driver.

    Python strings are modelled by [string], whose characters are the 256
    code points of Latin-1; on these the regular-expression class [\d] is
    the ten ASCII digits.  Exceptions are values of [exn] carried by
    [result] and [outcome]. *)

From Stdlib Require Import ZArith Ascii String List Lia.
From Stdlib.Strings Require Import Byte.
From stdpp Require Import base gmap list strings.

#[local] Set Warnings "-clear-no-such-hyp".

Local Open Scope string_scope.
Local Open Scope list_scope.
Local Open Scope Z_scope.

(** ** Characters and Python string methods *)

Definition code (a : ascii) : Z := Z.of_N (N_of_ascii a).

Definition is_digit (a : ascii) : bool := (48 <=? code a) && (code a <=? 57).

Definition digit_val (a : ascii) : Z := code a - 48.

Definition in_range (lo hi a : ascii) : bool :=
  (code lo <=? code a) && (code a <=? code hi).

(** [s.startswith(prefix)] *)
Fixpoint startswith (s prefix : string) : bool :=
  match prefix with
  | EmptyString => true
  | String p prefix' =>
      match s with
      | EmptyString => false
      | String a s' => Ascii.eqb a p && startswith s' prefix'
      end
  end.

(** [s.endswith(suffix)] *)
Definition endswith (s suffix : string) : bool :=
  startswith (String.rev s) (String.rev suffix).

(** [''.join(parts)] *)
Fixpoint join_empty (parts : list string) : string :=
  match parts with
  | [] => EmptyString
  | p :: parts' => p +:+ join_empty parts'
  end.

(** [l[i:j]] for non-negative constant bounds. *)
Definition slice {A} (i j : nat) (l : list A) : list A := take (j - i) (drop i l).

(** ** Exceptions *)

Inductive exn :=
| FileNotFoundError
| NotADirectoryError
| TypeError
| ValueError
| InvalidImageDataError
| UnboundLocalError.

Inductive result (A : Type) :=
| Ok (a : A)
| Raise (e : exn).
Arguments Ok {A} a.
Arguments Raise {A} e.

#[global] Instance result_bind : MBind result := λ A B k r,
  match r with
  | Ok a => k a
  | Raise e => Raise e
  end.

(** ** Regular expressions of the classifier

    The two patterns are concatenations of character classes under a
    counted repetition or under [+]; [re.match] anchors at the start of
    the string only. *)

Inductive charclass :=
| Digit               (* \d *)
| Lit (a : ascii)     (* a literal character, escaped or not *)
| AnyChar.            (* .  : anything except a newline *)

Definition class_matches (c : charclass) (a : ascii) : bool :=
  match c with
  | Digit => is_digit a
  | Lit b => Ascii.eqb a b
  | AnyChar => negb (Ascii.eqb a "010")
  end.

Inductive piece :=
| Times (n : nat) (c : charclass)   (* c{n} *)
| Plus (c : charclass).             (* c+   *)

Definition regex := list piece.

Definition lits (s : string) : regex :=
  map (fun a => Times 1 (Lit a)) (list_ascii_of_string s).

Fixpoint eat (n : nat) (c : charclass) (s : string) : option string :=
  match n with
  | O => Some s
  | S n' =>
      match s with
      | String a s' => if class_matches c a then eat n' c s' else None
      | EmptyString => None
      end
  end.

(** [bool(r.match(s))]: some prefix of [s] is matched by [r]. *)
Fixpoint re_match (r : regex) (s : string) : bool :=
  match r with
  | [] => true
  | Times n c :: r' =>
      match eat n c s with
      | Some s' => re_match r' s'
      | None => false
      end
  | Plus c :: r' =>
      match s with
      | String a s' =>
          class_matches c a &&
          (fix more (t : string) : bool :=
             match t with
             | String b t' => (class_matches c b && more t') || re_match r' t
             | EmptyString => re_match r' t
             end) s'
      | EmptyString => false
      end
  end.

Definition date_pattern : regex :=
  [Times 4 Digit] ++ lits "-" ++ [Times 2 Digit] ++ lits "-" ++ [Times 2 Digit]
  ++ lits "-" ++ [Times 2 Digit] ++ lits "-" ++ [Times 2 Digit] ++ lits "-"
  ++ [Times 2 Digit] ++ lits "." ++ [Plus AnyChar].

Definition img_filename_regex : regex :=
  [Times 8 Digit] ++ lits "-PHOTO-" ++ date_pattern.

Definition vid_filename_regex : regex :=
  [Times 8 Digit] ++ lits "-VIDEO-" ++ date_pattern.

Definition is_whatsapp_img (filename : string) : bool :=
  re_match img_filename_regex filename.

Definition is_whatsapp_vid (filename : string) : bool :=
  re_match vid_filename_regex filename.

(** [re.split("[.-]", s)] *)
Definition is_sep (a : ascii) : bool := Ascii.eqb a "." || Ascii.eqb a "-".

Fixpoint re_split (s : string) : list string :=
  match s with
  | EmptyString => [EmptyString]
  | String a s' =>
      if is_sep a then EmptyString :: re_split s'
      else match re_split s' with
           | t :: ts => String a t :: ts
           | [] => [String a EmptyString]
           end
  end.

(** ** datetime *)

Record datetime := {
  year : Z; month : Z; day : Z; hour : Z; minute : Z; second : Z
}.

Definition is_leap (y : Z) : bool :=
  (y mod 4 =? 0) && (negb (y mod 100 =? 0) || (y mod 400 =? 0)).

Definition days_in_month (y m : Z) : Z :=
  if m =? 2 then (if is_leap y then 29 else 28)
  else if (m =? 4) || (m =? 6) || (m =? 9) || (m =? 11) then 30
  else 31.

(** The range checks of the [datetime] constructor. *)
Definition valid_datetime (y mo d h mi s : Z) : bool :=
  (1 <=? y) && (y <=? 9999) && (1 <=? mo) && (mo <=? 12)
  && (1 <=? d) && (d <=? days_in_month y mo)
  && (0 <=? h) && (h <=? 23) && (0 <=? mi) && (mi <=? 59)
  && (0 <=? s) && (s <=? 59).

Definition make_datetime (y mo d h mi s : Z) : result datetime :=
  if valid_datetime y mo d h mi s
  then Ok {| year := y; month := mo; day := d; hour := h; minute := mi; second := s |}
  else Raise ValueError.

(** *** strptime with the format [%Y%m%d%H%M%S]

    [_strptime] turns the format into one regular expression, a group per
    directive, and matches it against the start of the data with
    backtracking; each alternative of a directive is tried in the order it
    is written.  Data left after the match is an error. *)

Inductive alt :=
| Two (p q : ascii → bool)   (* two characters, read as a two-digit number *)
| One (p : ascii → bool)     (* one digit *)
| Blank (p : ascii → bool).  (* a space and one digit *)

Definition run_alt (a : alt) (s : string) : option (Z * string) :=
  match a, s with
  | Two p q, String x (String y r) =>
      if p x && q y then Some (10 * digit_val x + digit_val y, r) else None
  | One p, String x r =>
      if p x then Some (digit_val x, r) else None
  | Blank p, String x (String y r) =>
      if Ascii.eqb x " " && p y then Some (digit_val y, r) else None
  | _, _ => None
  end.

Definition is_char (c a : ascii) : bool := Ascii.eqb a c.

(* 1[0-2]|0[1-9]|[1-9] *)
Definition directive_m : list alt :=
  [Two (is_char "1") (in_range "0" "2"); Two (is_char "0") (in_range "1" "9");
   One (in_range "1" "9")].

(* 3[0-1]|[1-2]\d|0[1-9]|[1-9]| [1-9] *)
Definition directive_d : list alt :=
  [Two (is_char "3") (in_range "0" "1"); Two (in_range "1" "2") is_digit;
   Two (is_char "0") (in_range "1" "9"); One (in_range "1" "9");
   Blank (in_range "1" "9")].

(* 2[0-3]|[0-1]\d|\d *)
Definition directive_H : list alt :=
  [Two (is_char "2") (in_range "0" "3"); Two (in_range "0" "1") is_digit;
   One is_digit].

(* [0-5]\d|\d *)
Definition directive_M : list alt :=
  [Two (in_range "0" "5") is_digit; One is_digit].

(* 6[0-1]|[0-5]\d|\d *)
Definition directive_S : list alt :=
  [Two (is_char "6") (in_range "0" "1"); Two (in_range "0" "5") is_digit;
   One is_digit].

(** The alternatives of one directive, each followed by the rest of the
    pattern [k]; the first that lets the rest match wins. *)
Fixpoint try_alts (k : string → option (list Z * string)) (alts : list alt)
    (s : string) : option (list Z * string) :=
  match alts with
  | [] => None
  | a :: alts' =>
      match run_alt a s with
      | Some (v, r) =>
          match k r with
          | Some (vs, r') => Some (v :: vs, r')
          | None => try_alts k alts' s
          end
      | None => try_alts k alts' s
      end
  end.

Fixpoint match_fields (fs : list (list alt)) (s : string)
    : option (list Z * string) :=
  match fs with
  | [] => Some ([], s)
  | f :: fs' => try_alts (match_fields fs') f s
  end.

Definition time_directives : list (list alt) :=
  [directive_m; directive_d; directive_H; directive_M; directive_S].

(** [datetime.strptime(s, '%Y%m%d%H%M%S')]; [%Y] is [\d\d\d\d]. *)
Definition strptime (s : string) : result datetime :=
  match s with
  | String a (String b (String c (String d r))) =>
      if is_digit a && is_digit b && is_digit c && is_digit d then
        match match_fields time_directives r with
        | Some ([mo; dd; hh; mi; ss], EmptyString) =>
            make_datetime
              (1000 * digit_val a + 100 * digit_val b + 10 * digit_val c + digit_val d)
              mo dd hh mi ss
        | _ => Raise ValueError
        end
      else Raise ValueError
  | _ => Raise ValueError
  end.

Definition digit_char (n : Z) : ascii := ascii_of_N (Z.to_N (48 + n)).

Definition pad2 (n : Z) : string :=
  String (digit_char (n / 10)) (String (digit_char (n mod 10)) EmptyString).

Definition pad4 (n : Z) : string :=
  String (digit_char (n / 1000)) (String (digit_char (n / 100 mod 10))
    (String (digit_char (n / 10 mod 10)) (String (digit_char (n mod 10)) EmptyString))).

(** [dt.strftime("%Y:%m:%d %H:%M:%S")], every field zero-padded to its
    documented width. *)
Definition strftime (dt : datetime) : string :=
  pad4 (year dt) +:+ ":" +:+ pad2 (month dt) +:+ ":" +:+ pad2 (day dt) +:+ " "
  +:+ pad2 (hour dt) +:+ ":" +:+ pad2 (minute dt) +:+ ":" +:+ pad2 (second dt).

(** ** Filename parser *)

Definition get_datetime (filename : string) : result datetime :=
  let date_str := join_empty (slice 2 8 (re_split filename)) in
  strptime date_str.

Definition get_exif_datestr (filename : string) : result string :=
  dt ← get_datetime filename; Ok (strftime dt).

(** ** os.path (POSIX flavour) *)

Fixpoint rfind_from (c : ascii) (s : string) (i last : Z) : Z :=
  match s with
  | EmptyString => last
  | String a s' => rfind_from c s' (i + 1) (if Ascii.eqb a c then i else last)
  end.

(** [s.rfind(c)]: the highest index of [c] in [s], or -1. *)
Definition rfind (s : string) (c : ascii) : Z := rfind_from c s 0 (-1).

(** The loop of [genericpath._splitext] that skips leading dots: [true] when
    it returns from inside the loop, at a character that is not a dot. *)
Fixpoint splitext_scan (p : string) (filenameIndex steps : nat) : bool :=
  match steps with
  | O => false
  | S steps' =>
      match String.get filenameIndex p with
      | Some "."%char => splitext_scan p (S filenameIndex) steps'
      | _ => true
      end
  end.

(** [os.path.splitext(p)] with [sep = '/'], no [altsep], [extsep = '.']. *)
Definition splitext (p : string) : string * string :=
  let sepIndex := rfind p "/" in
  let dotIndex := rfind p "." in
  if (sepIndex <? dotIndex)
     && splitext_scan p (Z.to_nat (sepIndex + 1)) (Z.to_nat (dotIndex - (sepIndex + 1)))
  then (substring 0 (Z.to_nat dotIndex) p,
        substring (Z.to_nat dotIndex) (String.length p - Z.to_nat dotIndex) p)
  else (p, EmptyString).

(** [os.path.join(a, b)] *)
Definition path_join (a b : string) : string :=
  if startswith b "/" then b
  else if String.eqb a "" || endswith a "/" then a +:+ b
  else a +:+ "/" +:+ b.

(** ** The directory tree under the root

    What enumeration reads of the file system: names and kinds.  [Special]
    stands for an entry that is neither a regular file nor a directory. *)

#[warnings="-register-all"]
Inductive node :=
| Regular
| Special
| Directory (entries : list (string * node)).

Definition is_directory (n : node) : bool :=
  match n with Directory _ => true | _ => false end.

(** [os.listdir] *)
Definition listdir (n : node) : result (list string) :=
  match n with
  | Directory entries => Ok (map fst entries)
  | _ => Raise NotADirectoryError
  end.

(** The entry that [os.path.join(dir, name)] names. *)
Definition child (n : node) (name : string) : option node :=
  match n with
  | Directory entries =>
      snd <$> List.find (fun e => String.eqb (fst e) name) entries
  | _ => None
  end.

(** [os.path.isfile] *)
Definition isfile (n : option node) : bool :=
  match n with Some Regular => true | _ => false end.

Definition dirnames_of (entries : list (string * node)) : list string :=
  map fst (List.filter (fun e => is_directory (snd e)) entries).

Definition filenames_of (entries : list (string * node)) : list string :=
  map fst (List.filter (fun e => negb (is_directory (snd e))) entries).

(** [os.walk(top)], top-down: the triple of a directory, then the walks of
    its subdirectories in the order they are listed. *)
Fixpoint walk (top : string) (n : node) : list (string * list string * list string) :=
  match n with
  | Directory entries =>
      (top, dirnames_of entries, filenames_of entries)
      :: (fix below (es : list (string * node)) :=
            match es with
            | [] => []
            | (name, sub) :: es' =>
                (if is_directory sub then walk (path_join top name) sub else [])
                ++ below es'
            end) entries
  | _ => []
  end.

(** ** File enumerator and extension filter *)

Definition ignored_files : list string := [".DS_Store"; "_chat.txt"].

Definition not_ignored (f : string) : bool :=
  negb (bool_decide (f ∈ ignored_files)) && negb (startswith f "._").

Section Enumerator.

(** [os.path.abspath] *)
Variable abspath : string → string.

Definition get_filepaths (path : string) (root : node) (recursive : bool)
    : result (list (string * string)) :=
  if negb recursive then
    let abspath_ := abspath path in
    names ← listdir root;
    Ok (map (fun f => (abspath_, f))
          (List.filter (fun f => isfile (child root f) && not_ignored f) names))
  else
    Ok (concat (map (fun '(dirpath, dirnames, filenames) =>
                       let abspath_ := abspath dirpath in
                       map (fun f => (abspath_, f)) (List.filter not_ignored filenames))
                    (walk path root))).

End Enumerator.

Definition filter_filepaths (filepaths : list (string * string))
    (allowed_ext : gset string) : list (string * string) :=
  List.filter (fun '(fp, fn) => bool_decide ((splitext fn).2 ∈ allowed_ext)) filepaths.

Definition filtered_filepaths (unfiltered_fps filepaths : list (string * string))
    : list (string * string) :=
  List.filter (fun i => negb (bool_decide (i ∈ filepaths))) unfiltered_fps.

Definition allowed_extensions : gset string :=
  {[ ".mp4"; ".jpg"; ".3gp"; ".jpeg" ]}.

(** ** Embedded metadata (piexif)

    [piexif.load] returns a dictionary of the image file directories, each
    a dictionary from tag numbers to values, and the thumbnail. *)

#[warnings="-register-all"]
Inductive value :=
| VStr (s : string)
| VBytes (b : list byte)
| VInt (n : Z)
| VTuple (vs : list value).

(** Python truth of a tag value. *)
Definition truthy (v : value) : bool :=
  match v with
  | VStr s => negb (String.eqb s "")
  | VBytes b => match b with [] => false | _ => true end
  | VInt n => negb (n =? 0)
  | VTuple vs => match vs with [] => false | _ => true end
  end.

Record exif_dict := {
  ifd_0th : gmap Z value;
  ifd_Exif : gmap Z value;
  ifd_GPS : gmap Z value;
  ifd_Interop : gmap Z value;
  ifd_1st : gmap Z value;
  thumbnail : option (list byte)
}.

(** [piexif.ExifIFD.DateTimeOriginal] *)
Definition DateTimeOriginal : Z := 36867.

(** [d['Exif'].get(tag)] used as a condition: a missing tag is [None]. *)
Definition tag_present (d : exif_dict) (tag : Z) : bool :=
  match ifd_Exif d !! tag with
  | Some v => truthy v
  | None => false
  end.

(** [d['Exif'][tag] = v] *)
Definition set_Exif_tag (d : exif_dict) (tag : Z) (v : value) : exif_dict :=
  {| ifd_0th := ifd_0th d; ifd_Exif := <[tag := v]> (ifd_Exif d);
     ifd_GPS := ifd_GPS d; ifd_Interop := ifd_Interop d; ifd_1st := ifd_1st d;
     thumbnail := thumbnail d |}.

(** The dictionary literal of [make_new_exif]. *)
Definition only_Exif (tags : gmap Z value) : exif_dict :=
  {| ifd_0th := ∅; ifd_Exif := tags; ifd_GPS := ∅; ifd_Interop := ∅; ifd_1st := ∅;
     thumbnail := None |}.

(** ** Files and the state of the batch loop

    A file has its bytes and the two times [os.utime] sets.  The times
    change only through [os.utime] here: the stamping an operating system
    does by its clock when a file is rewritten is outside the model.

    [exif_bytes] is the local variable of [main] of that name; it is
    unbound until an assignment to it has run, and it keeps its value from
    one iteration of the loop to the next. *)

Record file := { content : list byte; atime : Z; mtime : Z }.

Record state := {
  files : gmap string file;
  exif_bytes : option (list byte)
}.

Inductive outcome :=
| Done (st : state)
| Aborted (e : exn) (st : state).

Definition set_content (f : file) (c : list byte) : file :=
  {| content := c; atime := atime f; mtime := mtime f |}.

Definition set_times (f : file) (a m : Z) : file :=
  {| content := content f; atime := a; mtime := m |}.

Definition with_files (st : state) (fs : gmap string file) : state :=
  {| files := fs; exif_bytes := exif_bytes st |}.

Definition with_exif_bytes (st : state) (b : list byte) : state :=
  {| files := files st; exif_bytes := Some b |}.

(** [os.utime(filepath, (a, m))] *)
Definition utime (st : state) (filepath : string) (a m : Z) : result state :=
  match files st !! filepath with
  | Some f => Ok (with_files st (<[filepath := set_times f a m]> (files st)))
  | None => Raise FileNotFoundError
  end.

(** The three entry points of piexif the program calls, as functions of
    the bytes they are given, and [datetime.timestamp], which converts a
    naive local time by the time zone of the process. *)
Class Library := {
  piexif_load : list byte → result exif_dict;
  piexif_dump : exif_dict → result (list byte);
  piexif_insert : list byte → list byte → result (list byte);
  timestamp : datetime → Z
}.

Section Driver.

Context `{lib : Library}.

(** [piexif.load(filepath)] *)
Definition load_file (st : state) (filepath : string) : result exif_dict :=
  match files st !! filepath with
  | Some f => piexif_load (content f)
  | None => Raise FileNotFoundError
  end.

(** [piexif.insert(exif, filepath)] *)
Definition insert_file (st : state) (exif : list byte) (filepath : string)
    : result state :=
  match files st !! filepath with
  | Some f =>
      c ← piexif_insert exif (content f);
      Ok (with_files st (<[filepath := set_content f c]> (files st)))
  | None => Raise FileNotFoundError
  end.

Definition make_new_exif (filename : string) : result (list byte) :=
  datestr ← get_exif_datestr filename;
  piexif_dump (only_Exif {[ DateTimeOriginal := VStr datestr ]}).

(** The body of the [try]: [Ok None] is the [continue] of a file that is
    already tagged, [Ok (Some b)] the value assigned to [exif_bytes]. *)
Definition try_body (st : state) (filepath filename : string)
    : result (option (list byte)) :=
  exif_dict ← load_file st filepath;
  if tag_present exif_dict DateTimeOriginal then Ok None
  else
    datestr ← get_exif_datestr filename;
    b ← piexif_dump (set_Exif_tag exif_dict DateTimeOriginal (VStr datestr));
    Ok (Some b).

(** The statements after the [try]: the insert, then the optional
    [os.utime]. *)
Definition write_back (mod_ : bool) (st : state) (filepath filename : string)
    : outcome :=
  match exif_bytes st with
  | None => Aborted UnboundLocalError st
  | Some b =>
      match insert_file st b filepath with
      | Raise e => Aborted e st
      | Ok st1 =>
          if mod_ then
            match get_datetime filename with
            | Raise e => Aborted e st1
            | Ok date =>
                let modTime := timestamp date in
                match utime st1 filepath modTime modTime with
                | Raise e => Aborted e st1
                | Ok st2 => Done st2
                end
            end
          else Done st1
      end
  end.

(** One iteration of the loop of [main]; [Done] also stands for
    [continue].  The option [mod] is written [mod_], [mod] being taken by
    the notation for the remainder. *)
Definition process_file (mod_ : bool) (st : state) (entry : string * string)
    : outcome :=
  let '(path, filename) := entry in
  let filepath := path_join path filename in
  if endswith filename ".mp4" || endswith filename ".3gp" then
    if negb (is_whatsapp_vid filename) then Done st
    else
      match get_datetime filename with
      | Raise e => Aborted e st
      | Ok date =>
          let modTime := timestamp date in
          match utime st filepath modTime modTime with
          | Raise e => Aborted e st
          | Ok st1 => Done st1
          end
      end
  else if endswith filename ".jpg" || endswith filename ".jpeg" then
    if negb (is_whatsapp_img filename) then Done st
    else
      match try_body st filepath filename with
      | Ok None => Done st
      | Ok (Some b) => write_back mod_ (with_exif_bytes st b) filepath filename
      | Raise InvalidImageDataError => Done st
      | Raise ValueError =>
          match make_new_exif filename with
          | Raise e => Aborted e st
          | Ok _ => write_back mod_ st filepath filename
          end
      | Raise e => Aborted e st
      end
  else Done st.

(** The [for] loop: an exception ends it. *)
Fixpoint run_files (mod_ : bool) (filepaths : list (string * string)) (st : state)
    : outcome :=
  match filepaths with
  | [] => Done st
  | entry :: rest =>
      match process_file mod_ st entry with
      | Done st1 => run_files mod_ rest st1
      | Aborted e st1 => Aborted e st1
      end
  end.

Variable abspath : string → string.

(** [main(path, recursive, mod)]; [root] is what [path] names, if
    anything, and [store] the files at the start.  The excluded list,
    [filtered_filepaths] of the enumeration and the included list, is only
    reported to the log. *)
Definition main (path : string) (root : option node) (recursive mod_ : bool)
    (store : gmap string file) : outcome :=
  let st := {| files := store; exif_bytes := None |} in
  match root with
  | None => Aborted FileNotFoundError st
  | Some n =>
      if negb (is_directory n) then Aborted TypeError st
      else
        match get_filepaths abspath path n recursive with
        | Raise e => Aborted e st
        | Ok filepaths =>
            let filepaths := filter_filepaths filepaths allowed_extensions in
            run_files mod_ filepaths st
        end
  end.

End Driver.

(** ** A concrete library and clock for the examples

    A three-case container format standing in for piexif where a lemma is
    run on explicit bytes: an empty file is no image, a first byte 0 is an
    image without metadata, a first byte 1 an image whose remaining bytes
    are its capture date, and any other first byte is metadata that cannot
    be read. *)

Module Sample.

Definition load (c : list byte) : result exif_dict :=
  match c with
  | [] => Raise InvalidImageDataError
  | x00 :: _ => Ok (only_Exif ∅)
  | x01 :: b => Ok (only_Exif {[ DateTimeOriginal := VBytes b ]})
  | _ => Raise ValueError
  end.

Definition dump (d : exif_dict) : result (list byte) :=
  match ifd_Exif d !! DateTimeOriginal with
  | None => Ok []
  | Some (VStr s) => Ok (list_byte_of_string s)
  | Some (VBytes b) => Ok b
  | Some _ => Raise ValueError
  end.

Definition insert (exif c : list byte) : result (list byte) :=
  match c with
  | [] => Raise InvalidImageDataError
  | _ => Ok (x01 :: exif)
  end.

Definition days_before_year (y : Z) : Z :=
  (y - 1) * 365 + (y - 1) / 4 - (y - 1) / 100 + (y - 1) / 400.

Definition days_before_month (y m : Z) : Z :=
  nth (Z.to_nat (m - 1)) [0; 31; 59; 90; 120; 151; 181; 212; 243; 273; 304; 334] 0
  + (if (2 <? m) && is_leap y then 1 else 0).

(** [datetime.timestamp] in a process whose local time is UTC. *)
Definition utc_timestamp (dt : datetime) : Z :=
  (days_before_year (year dt) + days_before_month (year dt) (month dt) + day dt
   - 719163) * 86400
  + hour dt * 3600 + minute dt * 60 + second dt.

Definition library : Library :=
  {| piexif_load := load; piexif_dump := dump; piexif_insert := insert;
     timestamp := utc_timestamp |}.

Definition process_file := @process_file library.
Definition run_files := @run_files library.
Definition main := @main library (fun p => p).

Definition untagged : file := {| content := [x00; x2a]; atime := 5; mtime := 7 |}.
Definition malformed : file := {| content := [x02; x2a]; atime := 5; mtime := 7 |}.
Definition not_an_image : file := {| content := []; atime := 5; mtime := 7 |}.
Definition video : file := {| content := [x2a]; atime := 5; mtime := 7 |}.

End Sample.

(** ** Notions the statements use *)

(** [int(s)] of a string of digits. *)
Definition int (s : string) : Z :=
  fold_left (fun acc a => 10 * acc + digit_val a) (list_ascii_of_string s) 0.

(** What the enumerator never returns. *)
Definition clean (e : string * string) : Prop :=
  e.2 ≠ ".DS_Store" ∧ e.2 ≠ "_chat.txt" ∧ startswith e.2 "._" = false.

Definition decimal_digits : list ascii :=
  ["0"; "1"; "2"; "3"; "4"; "5"; "6"; "7"; "8"; "9"]%char.

(** The directives of [strptime] on a pair of digits. *)

Definition matches_two (x : alt) (a b : ascii) : bool :=
  match x with Two p q => p a && q b | _ => false end.

(** Some two-character alternative of the directive accepts [a b]. *)
Definition two_ok (f : list alt) (a b : ascii) : bool :=
  existsb (fun x => matches_two x a b) f.

Definition is_two (x : alt) : bool :=
  match x with Two _ _ => true | _ => false end.

(** The two-character alternatives of the directive come before the others. *)
Fixpoint twos_first (f : list alt) : bool :=
  match f with
  | [] => true
  | x :: f' => if is_two x then twos_first f' else forallb (fun y => negb (is_two y)) f'
  end.

(** ** Further notions *)

(** A string of exactly [n] decimal digits. *)
Definition digits (n : nat) (s : string) : bool :=
  (String.length s =? n)%nat && forallb is_digit (list_ascii_of_string s).

(** The names of the WhatsApp convention for the media-type tag [kind]:
    eight digits, the tag, the six zero-padded fields, a dot and at least
    one more character that is no newline. *)
Definition stamped (kind fn : string) : Prop :=
  ∃ seq y mo d h mi s c ext,
    fn = seq +:+ "-" +:+ kind +:+ "-" +:+ y +:+ "-" +:+ mo +:+ "-" +:+ d +:+ "-"
         +:+ h +:+ "-" +:+ mi +:+ "-" +:+ s +:+ "." +:+ String c ext
    ∧ digits 8 seq = true ∧ digits 4 y = true ∧ digits 2 mo = true
    ∧ digits 2 d = true ∧ digits 2 h = true ∧ digits 2 mi = true
    ∧ digits 2 s = true ∧ c ≠ "010"%char.

(** The number of characters of [s] that [re.split("[.-]", s)] splits at. *)
Fixpoint separators (s : string) : nat :=
  match s with
  | EmptyString => O
  | String a s' => ((if is_sep a then 1 else 0) + separators s')%nat
  end.

(** The form of a date in the embedded metadata:
    [\d{4}:\d{2}:\d{2} \d{2}:\d{2}:\d{2}]. *)
Definition exif_date_regex : regex :=
  [Times 4 Digit] ++ lits ":" ++ [Times 2 Digit] ++ lits ":" ++ [Times 2 Digit]
  ++ lits " " ++ [Times 2 Digit] ++ lits ":" ++ [Times 2 Digit] ++ lits ":"
  ++ [Times 2 Digit].

(** The state a run of the loop leaves, whether it ended or was aborted. *)
Definition final (o : outcome) : state :=
  match o with
  | Done st => st
  | Aborted _ st => st
  end.

(** From [st] to [st'] no file but the one at [filepath] has changed, and
    no file has appeared or gone. *)
Definition touches_only (filepath : string) (st st' : state) : Prop :=
  (∀ p, p ≠ filepath → files st' !! p = files st !! p)
  ∧ dom (files st') = dom (files st).

(** What a step can do to the files: nothing, or replace the one file it
    was given, which was there. *)
Definition step_effect (filepath : string) (st : state) (o : outcome) : Prop :=
  files (final o) = files st
  ∨ ∃ f f', o = Done (final o) ∧ files st !! filepath = Some f
            ∧ files (final o) = <[filepath := f']> (files st).

(** * Properties *)

(** ** Filename parser *)

(** *** Digits *)

Lemma is_digit_cases (a : ascii) : is_digit a = true → In a decimal_digits.
Proof.
  intros H. destruct a as [[] [] [] [] [] [] [] []];
    vm_compute in H; try discriminate H;
    cbn; repeat (first [left; reflexivity | right]).
Qed.

Ltac each_digit H :=
  apply is_digit_cases in H; cbn in H;
  repeat (destruct H as [<-|H]); [..|destruct H].

Lemma digit_is_no_separator (a : ascii) : is_digit a = true → is_sep a = false.
Proof. intros H. each_digit H; reflexivity. Qed.

Lemma digit_is_no_space (a : ascii) : is_digit a = true → Ascii.eqb a " " = false.
Proof. intros H. each_digit H; reflexivity. Qed.

Lemma digit_val_range (a : ascii) : is_digit a = true → 0 ≤ digit_val a ≤ 9.
Proof. intros H. each_digit H; vm_compute; split; discriminate. Qed.

Lemma digit_char_val (a : ascii) : is_digit a = true → digit_char (digit_val a) = a.
Proof. intros H. each_digit H; reflexivity. Qed.

Lemma pad2_digits (a b : ascii) :
  is_digit a = true → is_digit b = true →
  pad2 (10 * digit_val a + digit_val b) = String a (String b EmptyString).
Proof.
  intros Ha Hb. pose proof (digit_val_range a Ha). pose proof (digit_val_range b Hb).
  unfold pad2.
  replace ((10 * digit_val a + digit_val b) / 10) with (digit_val a)
    by (apply Z.div_unique with (r := digit_val b); lia).
  replace ((10 * digit_val a + digit_val b) mod 10) with (digit_val b)
    by (apply Z.mod_unique with (q := digit_val a); lia).
  by rewrite !digit_char_val.
Qed.

Lemma pad4_digits (a b c d : ascii) :
  is_digit a = true → is_digit b = true → is_digit c = true → is_digit d = true →
  pad4 (1000 * digit_val a + 100 * digit_val b + 10 * digit_val c + digit_val d)
  = String a (String b (String c (String d EmptyString))).
Proof.
  intros Ha Hb Hc Hd.
  pose proof (digit_val_range a Ha). pose proof (digit_val_range b Hb).
  pose proof (digit_val_range c Hc). pose proof (digit_val_range d Hd).
  unfold pad4.
  set (n := 1000 * digit_val a + 100 * digit_val b + 10 * digit_val c + digit_val d).
  replace (n / 1000) with (digit_val a)
    by (apply Z.div_unique with (r := 100 * digit_val b + 10 * digit_val c + digit_val d);
        lia).
  replace (n / 100) with (10 * digit_val a + digit_val b)
    by (apply Z.div_unique with (r := 10 * digit_val c + digit_val d); lia).
  replace (n / 10) with (100 * digit_val a + 10 * digit_val b + digit_val c)
    by (apply Z.div_unique with (r := digit_val d); lia).
  replace ((10 * digit_val a + digit_val b) mod 10) with (digit_val b)
    by (apply Z.mod_unique with (q := digit_val a); lia).
  replace ((100 * digit_val a + 10 * digit_val b + digit_val c) mod 10)
    with (digit_val c)
    by (apply Z.mod_unique with (q := 10 * digit_val a + digit_val b); lia).
  replace (n mod 10) with (digit_val d)
    by (apply Z.mod_unique
          with (q := 100 * digit_val a + 10 * digit_val b + digit_val c); lia).
  by rewrite !digit_char_val.
Qed.

(** *** The directives of strptime on two-digit fields *)

Lemma run_alt_length (x : alt) (s r : string) (v : Z) :
  run_alt x s = Some (v, r) →
  (String.length s ≤ String.length r + 2)%nat.
Proof.
  destruct x as [p q|p|p]; destruct s as [|a [|b s]]; cbn; try discriminate;
    repeat match goal with |- context [if ?c then _ else _] => destruct c end;
    intros [= <- <-]; cbn; lia.
Qed.

Lemma try_alts_length k n (f : list alt) (s r : string) (vs : list Z) :
  (∀ s r vs, k s = Some (vs, r) → (String.length s ≤ String.length r + n)%nat) →
  try_alts k f s = Some (vs, r) →
  (String.length s ≤ String.length r + (2 + n))%nat.
Proof.
  intros Hk. induction f as [|x f IH]; cbn; [discriminate|].
  destruct (run_alt x s) as [[v r1]|] eqn:Hx; [|exact IH].
  destruct (k r1) as [[vs1 r2]|] eqn:Hr; [|exact IH].
  intros [= <- <-]. apply run_alt_length in Hx. apply Hk in Hr. lia.
Qed.

(** A match of [n] directives consumes at most [2 n] characters. *)
Lemma match_fields_length (fs : list (list alt)) (s r : string) (vs : list Z) :
  match_fields fs s = Some (vs, r) →
  (String.length s ≤ String.length r + 2 * List.length fs)%nat.
Proof.
  revert s r vs. induction fs as [|f fs IH]; intros s r vs; cbn [match_fields].
  - intros [= <- <-]. cbn. lia.
  - intros H. eapply try_alts_length in H; [|exact IH]. cbn [List.length]. lia.
Qed.

(** A directive whose match leaves nothing of an input of exactly twice as
    many digits as there are directives took two characters, by one of its
    two-character alternatives, and so did the rest. *)
Lemma try_alts_exact (fs : list (list alt)) (f : list alt) (a b : ascii)
    (rest : string) (vs : list Z) :
  is_digit a = true →
  String.length rest = (2 * List.length fs)%nat →
  try_alts (match_fields fs) f (String a (String b rest)) = Some (vs, EmptyString) →
  two_ok f a b = true
  ∧ ∃ vs', vs = (10 * digit_val a + digit_val b) :: vs'
           ∧ match_fields fs rest = Some (vs', EmptyString).
Proof.
  intros Ha Hlen. induction f as [|x f IH]; cbn [try_alts]; [discriminate|].
  assert (Hshort : ∀ vs', match_fields fs (String b rest) ≠ Some (vs', EmptyString)).
  { intros vs' H. apply match_fields_length in H. cbn in H. lia. }
  destruct x as [p q|p|p]; cbn [run_alt two_ok existsb matches_two].
  - destruct (p a && q b) eqn:Hpq; cbn [orb]; [|exact IH].
    destruct (match_fields fs rest) as [[vs1 r1]|] eqn:Hr.
    + intros [= <- ->]. eauto.
    + intros H. apply IH in H as (_ & vs' & _ & H). discriminate.
  - cbn [orb]. destruct (p a); [|exact IH].
    destruct (match_fields fs (String b rest)) as [[vs1 r1]|] eqn:Hr; [|exact IH].
    intros [= <- ->]. by destruct (Hshort vs1).
  - rewrite (digit_is_no_space a Ha). cbn [andb orb]. exact IH.
Qed.

(** With the two-character alternatives first, the one that accepts [a b]
    is taken as soon as the rest of the pattern matches behind it. *)
Lemma try_alts_two k (f : list alt) (a b : ascii) (rest r : string) (vs : list Z) :
  twos_first f = true →
  two_ok f a b = true →
  k rest = Some (vs, r) →
  try_alts k f (String a (String b rest))
  = Some ((10 * digit_val a + digit_val b) :: vs, r).
Proof.
  intros Hfirst Hok Hk. induction f as [|x f IH]; [discriminate|].
  cbn [twos_first] in Hfirst. cbn [two_ok existsb] in Hok.
  destruct x as [p q|p|p]; cbn [is_two matches_two] in *.
  - cbn [try_alts run_alt]. destruct (p a && q b); [by rewrite Hk|].
    cbn [orb] in Hok. by apply IH.
  - cbn [orb] in Hok. exfalso. clear IH.
    induction f as [|y f IH]; [discriminate|].
    cbn in Hfirst, Hok. destruct y; cbn in *; try discriminate; by apply IH.
  - cbn [orb] in Hok. exfalso. clear IH.
    induction f as [|y f IH]; [discriminate|].
    cbn in Hfirst, Hok. destruct y; cbn in *; try discriminate; by apply IH.
Qed.

Lemma match_fields_exact (f : list alt) (fs : list (list alt)) (a b : ascii)
    (rest : string) (vs : list Z) :
  is_digit a = true →
  twos_first f = true →
  String.length rest = (2 * List.length fs)%nat →
  match_fields (f :: fs) (String a (String b rest)) = Some (vs, EmptyString)
  ↔ two_ok f a b = true
    ∧ ∃ vs', vs = (10 * digit_val a + digit_val b) :: vs'
             ∧ match_fields fs rest = Some (vs', EmptyString).
Proof.
  intros Ha Hfirst Hlen. cbn [match_fields]. split.
  - by apply try_alts_exact.
  - intros (Hok & vs' & -> & Hrest). by apply try_alts_two.
Qed.

Ltac two_digits Ha Hb := each_digit Ha; each_digit Hb; reflexivity.

Lemma directive_m_two (a b : ascii) :
  is_digit a = true → is_digit b = true →
  two_ok directive_m a b
  = (1 <=? 10 * digit_val a + digit_val b) && (10 * digit_val a + digit_val b <=? 12).
Proof. intros Ha Hb. two_digits Ha Hb. Qed.

Lemma directive_d_two (a b : ascii) :
  is_digit a = true → is_digit b = true →
  two_ok directive_d a b
  = (1 <=? 10 * digit_val a + digit_val b) && (10 * digit_val a + digit_val b <=? 31).
Proof. intros Ha Hb. two_digits Ha Hb. Qed.

Lemma directive_H_two (a b : ascii) :
  is_digit a = true → is_digit b = true →
  two_ok directive_H a b = (10 * digit_val a + digit_val b <=? 23).
Proof. intros Ha Hb. two_digits Ha Hb. Qed.

Lemma directive_M_two (a b : ascii) :
  is_digit a = true → is_digit b = true →
  two_ok directive_M a b = (10 * digit_val a + digit_val b <=? 59).
Proof. intros Ha Hb. two_digits Ha Hb. Qed.

Lemma directive_S_two (a b : ascii) :
  is_digit a = true → is_digit b = true →
  two_ok directive_S a b = (10 * digit_val a + digit_val b <=? 61).
Proof. intros Ha Hb. two_digits Ha Hb. Qed.

Lemma days_in_month_le (y m : Z) : days_in_month y m ≤ 31.
Proof.
  unfold days_in_month.
  repeat match goal with |- context [if ?c then _ else _] => destruct c end; lia.
Qed.

(** The five directives after [%Y] on ten digits: the match is complete
    exactly when every pair of digits is accepted as a pair. *)
Lemma time_directives_exact (m1 m2 d1 d2 h1 h2 n1 n2 s1 s2 : ascii) (vs : list Z) :
  is_digit m1 = true → is_digit d1 = true → is_digit h1 = true →
  is_digit n1 = true → is_digit s1 = true →
  match_fields time_directives
    (String m1 (String m2 (String d1 (String d2 (String h1 (String h2
       (String n1 (String n2 (String s1 (String s2 EmptyString))))))))))
  = Some (vs, EmptyString)
  ↔ (two_ok directive_m m1 m2 = true ∧ two_ok directive_d d1 d2 = true
     ∧ two_ok directive_H h1 h2 = true ∧ two_ok directive_M n1 n2 = true
     ∧ two_ok directive_S s1 s2 = true)
    ∧ vs = [10 * digit_val m1 + digit_val m2; 10 * digit_val d1 + digit_val d2;
            10 * digit_val h1 + digit_val h2; 10 * digit_val n1 + digit_val n2;
            10 * digit_val s1 + digit_val s2].
Proof.
  intros Hm Hd Hh Hn Hs. unfold time_directives.
  rewrite match_fields_exact by done.
  setoid_rewrite match_fields_exact; [|done..].
  setoid_rewrite match_fields_exact; [|done..].
  setoid_rewrite match_fields_exact; [|done..].
  setoid_rewrite match_fields_exact; [|done..].
  cbn [match_fields]. split.
  - intros (? & ? & -> & ? & ? & -> & ? & ? & -> & ? & ? & -> & ? & ? & -> & [= <-]).
    done.
  - intros ((? & ? & ? & ? & ?) & ->). eauto 20.
Qed.

(** [strptime] on fourteen digits is the [datetime] constructor on the
    fields read in their fixed places. *)
Lemma strptime_digits (y1 y2 y3 y4 m1 m2 d1 d2 h1 h2 n1 n2 s1 s2 : ascii) :
  is_digit y1 = true → is_digit y2 = true → is_digit y3 = true → is_digit y4 = true →
  is_digit m1 = true → is_digit m2 = true → is_digit d1 = true → is_digit d2 = true →
  is_digit h1 = true → is_digit h2 = true → is_digit n1 = true → is_digit n2 = true →
  is_digit s1 = true → is_digit s2 = true →
  strptime
    (String y1 (String y2 (String y3 (String y4
       (String m1 (String m2 (String d1 (String d2 (String h1 (String h2
          (String n1 (String n2 (String s1 (String s2 EmptyString))))))))))))))
  = make_datetime
      (1000 * digit_val y1 + 100 * digit_val y2 + 10 * digit_val y3 + digit_val y4)
      (10 * digit_val m1 + digit_val m2) (10 * digit_val d1 + digit_val d2)
      (10 * digit_val h1 + digit_val h2) (10 * digit_val n1 + digit_val n2)
      (10 * digit_val s1 + digit_val s2).
Proof.
  intros Hy1 Hy2 Hy3 Hy4 Hm1 Hm2 Hd1 Hd2 Hh1 Hh2 Hn1 Hn2 Hs1 Hs2.
  unfold strptime. rewrite Hy1, Hy2, Hy3, Hy4. cbn [andb].
  set (Y := 1000 * digit_val y1 + 100 * digit_val y2 + 10 * digit_val y3 + digit_val y4).
  set (input := String m1 _).
  pose proof (λ vs, time_directives_exact m1 m2 d1 d2 h1 h2 n1 n2 s1 s2 vs
                      Hm1 Hd1 Hh1 Hn1 Hs1) as Hexact.
  fold input in Hexact.
  rewrite directive_m_two, directive_d_two, directive_H_two, directive_M_two,
    directive_S_two in Hexact by done.
  assert (Hvalid : valid_datetime Y (10 * digit_val m1 + digit_val m2)
                     (10 * digit_val d1 + digit_val d2) (10 * digit_val h1 + digit_val h2)
                     (10 * digit_val n1 + digit_val n2) (10 * digit_val s1 + digit_val s2)
                   = true →
                   match_fields time_directives input
                   = Some ([10 * digit_val m1 + digit_val m2;
                            10 * digit_val d1 + digit_val d2;
                            10 * digit_val h1 + digit_val h2;
                            10 * digit_val n1 + digit_val n2;
                            10 * digit_val s1 + digit_val s2], EmptyString)).
  { intros Hv. unfold valid_datetime in Hv.
    pose proof (days_in_month_le Y (10 * digit_val m1 + digit_val m2)).
    repeat (apply andb_true_iff in Hv as [Hv ?]).
    apply Hexact. split; [|reflexivity].
    rewrite !andb_true_iff, !Z.leb_le in *. lia. }
  unfold make_datetime at 2.
  destruct (valid_datetime Y _ _ _ _ _) eqn:Hv.
  - rewrite Hvalid by done. unfold make_datetime. by rewrite Hv.
  - destruct (match_fields time_directives input) as [[vs [|c r]]|] eqn:Hmatch.
    + destruct (proj1 (Hexact vs) eq_refl) as [_ ->].
      unfold make_datetime. by rewrite Hv.
    + by destruct vs as [|? [|? [|? [|? [|? [|? ?]]]]]].
    + reflexivity.
Qed.

(** *** Splitting a name that matches *)

Lemma re_split_separator (c : ascii) (s : string) :
  is_sep c = true → re_split (String c s) = EmptyString :: re_split s.
Proof. intros Hc. cbn [re_split]. by rewrite Hc. Qed.

(** A run of characters that are no separators, then a separator: the run
    is the first token. *)
Lemma re_split_token (p : string) (c : ascii) (s : string) :
  forallb (fun a => negb (is_sep a)) (list_ascii_of_string p) = true →
  is_sep c = true →
  re_split (p +:+ String c s) = p :: re_split s.
Proof.
  intros Hp Hc. induction p as [|a p IH].
  - by apply re_split_separator.
  - cbn in Hp. apply andb_true_iff in Hp as [Ha Hp]. apply negb_true_iff in Ha.
    change (String a p +:+ String c s) with (String a (p +:+ String c s)).
    cbn [re_split]. by rewrite Ha, IH.
Qed.

Lemma re_split_two (a b c : ascii) (s : string) :
  is_digit a = true → is_digit b = true → is_sep c = true →
  re_split (String a (String b (String c s)))
  = String a (String b EmptyString) :: re_split s.
Proof.
  intros Ha Hb Hc.
  apply (re_split_token (String a (String b EmptyString)) c s); [|exact Hc].
  cbn [list_ascii_of_string forallb].
  by rewrite !digit_is_no_separator.
Qed.

Lemma re_split_four (a b c d e : ascii) (s : string) :
  is_digit a = true → is_digit b = true → is_digit c = true → is_digit d = true →
  is_sep e = true →
  re_split (String a (String b (String c (String d (String e s)))))
  = String a (String b (String c (String d EmptyString))) :: re_split s.
Proof.
  intros Ha Hb Hc Hd He.
  apply (re_split_token (String a (String b (String c (String d EmptyString)))) e s);
    [|exact He].
  cbn [list_ascii_of_string forallb].
  by rewrite !digit_is_no_separator.
Qed.

Lemma re_match_times_O (c : charclass) (r : regex) (s : string) :
  re_match (Times 0 c :: r) s = re_match r s.
Proof. reflexivity. Qed.

Lemma re_match_times_S (n : nat) (c : charclass) (r : regex) (s : string) :
  re_match (Times (S n) c :: r) s = true →
  ∃ a s', s = String a s' ∧ class_matches c a = true
          ∧ re_match (Times n c :: r) s' = true.
Proof.
  cbn [re_match eat]. destruct s as [|a s]; [discriminate|].
  destruct (class_matches c a) eqn:Hc; [|discriminate].
  intros H. exists a, s. split_and!; [reflexivity | exact Hc | exact H].
Qed.

Lemma re_match_plus (c : charclass) (r : regex) (s : string) :
  re_match (Plus c :: r) s = true →
  ∃ a s', s = String a s' ∧ class_matches c a = true.
Proof.
  cbn [re_match]. destruct s as [|a s]; [discriminate|].
  destruct (class_matches c a) eqn:Hc; [|discriminate].
  intros _. exists a, s. split; [reflexivity | exact Hc].
Qed.

(** A name of the shape both patterns ask for: the six fields after the
    first two tokens are what [strptime] is given. *)
Lemma stamped_name_parses (seq kind : string) (y1 y2 y3 y4 m1 m2 d1 d2 h1 h2 n1 n2
    s1 s2 : ascii) (ext : string) :
  forallb (fun a => negb (is_sep a)) (list_ascii_of_string seq) = true →
  forallb (fun a => negb (is_sep a)) (list_ascii_of_string kind) = true →
  is_digit y1 = true → is_digit y2 = true → is_digit y3 = true → is_digit y4 = true →
  is_digit m1 = true → is_digit m2 = true → is_digit d1 = true → is_digit d2 = true →
  is_digit h1 = true → is_digit h2 = true → is_digit n1 = true → is_digit n2 = true →
  is_digit s1 = true → is_digit s2 = true →
  get_datetime
    (seq +:+ String "-" (kind +:+ String "-"
       (String y1 (String y2 (String y3 (String y4 (String "-"
          (String m1 (String m2 (String "-" (String d1 (String d2 (String "-"
             (String h1 (String h2 (String "-" (String n1 (String n2 (String "-"
                (String s1 (String s2 (String "." ext))))))))))))))))))))))
  = make_datetime
      (1000 * digit_val y1 + 100 * digit_val y2 + 10 * digit_val y3 + digit_val y4)
      (10 * digit_val m1 + digit_val m2) (10 * digit_val d1 + digit_val d2)
      (10 * digit_val h1 + digit_val h2) (10 * digit_val n1 + digit_val n2)
      (10 * digit_val s1 + digit_val s2).
Proof.
  intros Hseq Hkind Hy1 Hy2 Hy3 Hy4 Hm1 Hm2 Hd1 Hd2 Hh1 Hh2 Hn1 Hn2 Hs1 Hs2.
  unfold get_datetime.
  rewrite (re_split_token seq) by done.
  rewrite (re_split_token kind) by done.
  rewrite re_split_four by done.
  rewrite !re_split_two by done.
  cbn [slice drop take Nat.sub join_empty].
  by apply strptime_digits.
Qed.

Tactic Notation "read_char" hyp(H) ident(a) ident(Ha) :=
  apply re_match_times_S in H as (a & ? & -> & Ha & H);
  cbn [class_matches] in Ha; rewrite ?re_match_times_O in H.

Ltac read_lit H :=
  let a := fresh "c" in
  let Ha := fresh "Hc" in
  apply re_match_times_S in H as (a & ? & -> & Ha & H);
  cbn [class_matches] in Ha; apply Ascii.eqb_eq in Ha; subst a;
  rewrite ?re_match_times_O in H.

(** Reads a name off the hypothesis that one of the two patterns matches it. *)
Ltac read_stamp H :=
  read_char H q1 Hq1; read_char H q2 Hq2; read_char H q3 Hq3; read_char H q4 Hq4;
  read_char H q5 Hq5; read_char H q6 Hq6; read_char H q7 Hq7; read_char H q8 Hq8;
  do 7 read_lit H;
  read_char H y1 Hy1; read_char H y2 Hy2; read_char H y3 Hy3; read_char H y4 Hy4;
  read_lit H; read_char H m1 Hm1; read_char H m2 Hm2;
  read_lit H; read_char H d1 Hd1; read_char H d2 Hd2;
  read_lit H; read_char H h1 Hh1; read_char H h2 Hh2;
  read_lit H; read_char H n1 Hn1; read_char H n2 Hn2;
  read_lit H; read_char H s1 Hs1; read_char H s2 Hs2;
  read_lit H;
  apply re_match_plus in H as (? & ? & -> & _).

#[local] Arguments String.append : simpl nomatch.


#[local] Arguments String.append : simpl never.




(** ** Extension filter *)

Lemma filter_filepaths_spec filepaths allowed_ext (e : string * string) :
  e ∈ filter_filepaths filepaths allowed_ext
  ↔ e ∈ filepaths ∧ (splitext e.2).2 ∈ allowed_ext.
Proof.
  unfold filter_filepaths. rewrite !list_elem_of_In, filter_In.
  destruct e as [fp fn]; simpl. by rewrite bool_decide_eq_true.
Qed.

Lemma filtered_filepaths_spec unfiltered_fps filepaths (e : string * string) :
  e ∈ filtered_filepaths unfiltered_fps filepaths
  ↔ e ∈ unfiltered_fps ∧ e ∉ filepaths.
Proof.
  unfold filtered_filepaths. rewrite list_elem_of_In, filter_In, <- list_elem_of_In.
  by rewrite negb_true_iff, bool_decide_eq_false.
Qed.

Lemma filter_sublist {A} (p : A → bool) (l : list A) : List.filter p l `sublist_of` l.
Proof.
  induction l as [|x l IH]; simpl; [constructor|].
  destruct (p x); by constructor.
Qed.

Lemma filter_complement_perm {A} (p : A → bool) (l : list A) :
  List.filter p l ++ List.filter (fun x => negb (p x)) l ≡ₚ l.
Proof.
  induction l as [|x l IH]; simpl; [done|].
  destruct (p x); simpl.
  - by rewrite IH.
  - by rewrite <- Permutation_middle, IH.
Qed.

Lemma filtered_filepaths_complement filepaths allowed_ext :
  filtered_filepaths filepaths (filter_filepaths filepaths allowed_ext)
  = List.filter (fun e => negb (bool_decide ((splitext e.2).2 ∈ allowed_ext))) filepaths.
Proof.
  unfold filtered_filepaths. apply filter_ext_in. intros e He. f_equal.
  apply bool_decide_ext. rewrite filter_filepaths_spec.
  apply list_elem_of_In in He. naive_solver.
Qed.

Lemma filter_filepaths_alt filepaths allowed_ext :
  filter_filepaths filepaths allowed_ext
  = List.filter (fun e => bool_decide ((splitext e.2).2 ∈ allowed_ext)) filepaths.
Proof. unfold filter_filepaths. apply filter_ext. by intros [fp fn]. Qed.

(** C6.  The included list holds exactly the entries whose extension, as
    [splitext] returns it, is literally one of [.mp4], [.jpg], [.3gp],
    [.jpeg], in the order of the enumeration; the excluded list is the
    complement; together they make up the enumeration and have nothing in
    common. *)
Theorem extension_filter_partitions (filepaths : list (string * string)) :
  let included := filter_filepaths filepaths allowed_extensions in
  let excluded := filtered_filepaths filepaths included in
  let allowed (e : string * string) :=
    (splitext e.2).2 ∈ [".mp4"; ".jpg"; ".3gp"; ".jpeg"] in
  (∀ e, e ∈ included ↔ e ∈ filepaths ∧ allowed e)
  ∧ included `sublist_of` filepaths
  ∧ (∀ e, e ∈ excluded ↔ e ∈ filepaths ∧ ¬ allowed e)
  ∧ excluded `sublist_of` filepaths
  ∧ (∀ e, e ∈ filepaths ↔ e ∈ included ∨ e ∈ excluded)
  ∧ (∀ e, ¬ (e ∈ included ∧ e ∈ excluded))
  ∧ included ++ excluded ≡ₚ filepaths.
Proof.
  intros included excluded allowed.
  assert (Hallowed : ∀ e, (splitext e.2).2 ∈ allowed_extensions ↔ allowed e).
  { intros e. unfold allowed, allowed_extensions. set_solver. }
  assert (Hin : ∀ e, e ∈ included ↔ e ∈ filepaths ∧ allowed e).
  { intros e. unfold included. by rewrite filter_filepaths_spec, Hallowed. }
  assert (Hex : ∀ e, e ∈ excluded ↔ e ∈ filepaths ∧ ¬ allowed e).
  { intros e. unfold excluded. rewrite filtered_filepaths_spec, Hin. naive_solver. }
  split_and!.
  - exact Hin.
  - apply filter_sublist.
  - exact Hex.
  - apply filter_sublist.
  - intros e. rewrite Hin, Hex.
    destruct (decide ((splitext e.2).2 ∈ allowed_extensions)) as [H|H];
      rewrite Hallowed in H; naive_solver.
  - intros e. rewrite Hin, Hex. naive_solver.
  - unfold excluded, included.
    rewrite filtered_filepaths_complement, filter_filepaths_alt.
    apply filter_complement_perm.
Qed.

(** C9.  A file whose whole name is one of the allowed extensions has an
    empty extension, since a leading dot belongs to the base name; it is
    left out of the included list and reported as excluded. *)
Theorem bare_extension_name_is_excluded
    (filepaths : list (string * string)) (dir fn : string) :
  fn ∈ allowed_extensions →
  (dir, fn) ∈ filepaths →
  splitext fn = (fn, "")
  ∧ ((dir, fn) ∉ filter_filepaths filepaths allowed_extensions)
  ∧ (dir, fn) ∈ filtered_filepaths filepaths
                  (filter_filepaths filepaths allowed_extensions).
Proof.
  intros Hfn Hin.
  assert (Hext : splitext fn = (fn, "")).
  { unfold allowed_extensions in Hfn.
    apply elem_of_union in Hfn as [Hfn|Hfn];
      [apply elem_of_union in Hfn as [Hfn|Hfn];
       [apply elem_of_union in Hfn as [Hfn|Hfn]|]|];
      apply elem_of_singleton in Hfn; subst fn; reflexivity. }
  assert (Hnot : (dir, fn) ∉ filter_filepaths filepaths allowed_extensions).
  { rewrite filter_filepaths_spec. simpl. rewrite Hext. simpl.
    intros [_ H]. revert H. unfold allowed_extensions. set_solver. }
  split_and!; [exact Hext | exact Hnot |].
  by apply filtered_filepaths_spec.
Qed.

Lemma bare_extension_name_is_excluded_example :
  splitext ".jpg" = (".jpg", "")
  ∧ (("/media", ".jpg") ∉ filter_filepaths [("/media", ".jpg")] allowed_extensions)
  ∧ ("/media", ".jpg") ∈ filtered_filepaths [("/media", ".jpg")]
                           (filter_filepaths [("/media", ".jpg")] allowed_extensions).
Proof.
  apply (bare_extension_name_is_excluded [("/media", ".jpg")] "/media" ".jpg").
  - unfold allowed_extensions. set_solver.
  - apply list_elem_of_singleton. reflexivity.
Defined.

(** ** File enumerator *)

Lemma not_ignored_clean (d f : string) : not_ignored f = true → clean (d, f).
Proof.
  unfold not_ignored, clean, ignored_files. simpl.
  rewrite andb_true_iff, !negb_true_iff, bool_decide_eq_false.
  intros [Hnin Hpre]. split_and!; [| |exact Hpre]; intros ->; apply Hnin; set_solver.
Qed.

Lemma Forall_clean_filter (p : string → bool) (d : string) (names : list string) :
  (∀ f, p f = true → not_ignored f = true) →
  Forall clean (map (fun f => (d, f)) (List.filter p names)).
Proof.
  intros Hp. apply Forall_forall. intros e He.
  apply list_elem_of_In, in_map_iff in He as (f & <- & Hf).
  apply filter_In in Hf as [_ Hf]. by apply not_ignored_clean, Hp.
Qed.

Lemma Forall_of_sublist {A} (P : A → Prop) (l k : list A) :
  l `sublist_of` k → Forall P k → Forall P l.
Proof.
  intros Hsub Hk. apply Forall_forall. intros x Hx.
  eapply Forall_forall in Hk; [exact Hk|]. by eapply elem_of_sublist.
Qed.

Section EnumeratorFacts.

Variable abspath : string → string.

Lemma get_filepaths_directory path entries recursive :
  ∃ l, get_filepaths abspath path (Directory entries) recursive = Ok l.
Proof. destruct recursive; simpl; eauto. Qed.

Lemma get_filepaths_clean path root recursive l :
  get_filepaths abspath path root recursive = Ok l → Forall clean l.
Proof.
  unfold get_filepaths. destruct recursive; simpl.
  - intros [= <-]. apply Forall_concat, Forall_forall.
    intros k Hk. apply list_elem_of_In, in_map_iff in Hk as ([[dp dns] fns] & <- & _).
    by apply Forall_clean_filter.
  - destruct root; simpl; try discriminate. intros [= <-].
    apply Forall_clean_filter. intros f Hf.
    by apply andb_true_iff in Hf as [_ Hf].
Qed.

(** C7.  In both modes the enumeration of a directory returns no entry
    named [.DS_Store] or [_chat.txt] and none whose name starts with
    [._]; the same then holds of the included and of the excluded list. *)
Theorem enumeration_omits_artifacts
    (path : string) (entries : list (string * node)) (recursive : bool) :
  ∃ filepaths,
    get_filepaths abspath path (Directory entries) recursive = Ok filepaths
    ∧ Forall clean filepaths
    ∧ Forall clean (filter_filepaths filepaths allowed_extensions)
    ∧ Forall clean (filtered_filepaths filepaths
                      (filter_filepaths filepaths allowed_extensions)).
Proof.
  destruct (get_filepaths_directory path entries recursive) as [l Hl].
  exists l. pose proof (get_filepaths_clean _ _ _ _ Hl) as Hc.
  split_and!; [exact Hl | exact Hc | |];
    (eapply Forall_of_sublist; [apply filter_sublist | exact Hc]).
Qed.

(** C10.  Without the recursive option every pair returned has the root
    as its directory and names a regular file among the root's direct
    children; a child that is a directory or another kind of entry is
    not returned. *)
Theorem flat_enumeration_returns_regular_files
    (path : string) (entries : list (string * node)) :
  ∃ filepaths,
    get_filepaths abspath path (Directory entries) false = Ok filepaths
    ∧ Forall (fun e => e.1 = abspath path
                       ∧ child (Directory entries) e.2 = Some Regular) filepaths
    ∧ (∀ d f, child (Directory entries) f ≠ Some Regular → (d, f) ∉ filepaths).
Proof.
  eexists. split; [reflexivity|].
  match goal with |- Forall ?P ?l ∧ _ => assert (HF : Forall P l) end.
  { apply Forall_forall. intros e He.
    apply list_elem_of_In, in_map_iff in He as (f & <- & Hf).
    apply filter_In in Hf as [_ Hf]. apply andb_true_iff in Hf as [Hf _].
    split; [reflexivity|]. simpl in *.
    destruct (List.find _ entries) as [[n []]|]; simpl in *; done. }
  split; [exact HF|].
  intros d f Hne Hin. eapply Forall_forall in HF; [|exact Hin].
  simpl in HF. naive_solver.
Qed.

End EnumeratorFacts.

(** ** Per-file driver *)

Lemma image_name_is_no_video (fn : string) :
  endswith fn ".jpg" || endswith fn ".jpeg" = true →
  endswith fn ".mp4" || endswith fn ".3gp" = false.
Proof.
  unfold endswith. cbn [String.rev String.rev_app].
  destruct (String.rev fn) as [|a r]; [done|]. cbn [startswith].
  destruct (Ascii.eqb_spec a "g") as [->|Hg]; [done|].
  cbn [andb orb]. discriminate.
Qed.

Lemma strftime_nonempty (dt : datetime) : String.eqb (strftime dt) "" = false.
Proof. reflexivity. Qed.

Section DriverFacts.

Context `{lib : Library}.

Lemma run_files_cons_done mod_ e rest st st1 :
  process_file mod_ st e = Done st1 →
  run_files mod_ (e :: rest) st = run_files mod_ rest st1.
Proof. intros H. cbn [run_files]. by rewrite H. Qed.

Lemma run_files_cons_aborted mod_ e rest st st1 x :
  process_file mod_ st e = Aborted x st1 →
  run_files mod_ (e :: rest) st = Aborted x st1.
Proof. intros H. cbn [run_files]. by rewrite H. Qed.

(** The image branch, once the name has passed the classifier. *)
Lemma process_image mod_ st dir fn :
  endswith fn ".jpg" || endswith fn ".jpeg" = true →
  is_whatsapp_img fn = true →
  process_file mod_ st (dir, fn)
  = match try_body st (path_join dir fn) fn with
    | Ok None => Done st
    | Ok (Some b) => write_back mod_ (with_exif_bytes st b) (path_join dir fn) fn
    | Raise InvalidImageDataError => Done st
    | Raise ValueError =>
        match make_new_exif fn with
        | Raise e => Aborted e st
        | Ok _ => write_back mod_ st (path_join dir fn) fn
        end
    | Raise e => Aborted e st
    end.
Proof.
  intros Himg Hpat. unfold process_file.
  by rewrite (image_name_is_no_video _ Himg), Himg, Hpat.
Qed.

Lemma process_image_other_name mod_ st dir fn :
  endswith fn ".jpg" || endswith fn ".jpeg" = true →
  is_whatsapp_img fn = false →
  process_file mod_ st (dir, fn) = Done st.
Proof.
  intros Himg Hpat. unfold process_file.
  by rewrite (image_name_is_no_video _ Himg), Himg, Hpat.
Qed.

Lemma already_tagged_skip mod_ st dir fn f d :
  endswith fn ".jpg" || endswith fn ".jpeg" = true →
  files st !! path_join dir fn = Some f →
  piexif_load (content f) = Ok d →
  tag_present d DateTimeOriginal = true →
  process_file mod_ st (dir, fn) = Done st.
Proof.
  intros Himg Hf Hload Htag.
  destruct (is_whatsapp_img fn) eqn:Hpat;
    [|by apply process_image_other_name].
  rewrite process_image by done.
  unfold try_body, load_file. rewrite Hf, Hload. cbn. by rewrite Htag.
Qed.

(** The step that tags an untagged image. *)
Lemma tag_step mod_ st dir fn f d date b c :
  endswith fn ".jpg" || endswith fn ".jpeg" = true →
  is_whatsapp_img fn = true →
  files st !! path_join dir fn = Some f →
  piexif_load (content f) = Ok d →
  tag_present d DateTimeOriginal = false →
  get_datetime fn = Ok date →
  piexif_dump (set_Exif_tag d DateTimeOriginal (VStr (strftime date))) = Ok b →
  piexif_insert b (content f) = Ok c →
  process_file mod_ st (dir, fn)
  = Done {| files := <[path_join dir fn :=
                         if mod_
                         then {| content := c; atime := timestamp date;
                                 mtime := timestamp date |}
                         else {| content := c; atime := atime f; mtime := mtime f |}]>
                       (files st);
            exif_bytes := Some b |}.
Proof.
  intros Himg Hpat Hf Hload Htag Hdate Hdump Hins.
  rewrite process_image by done.
  unfold try_body, load_file, get_exif_datestr.
  rewrite Hf, Hload. cbn. rewrite Htag, Hdate. cbn. rewrite Hdump. cbn.
  unfold write_back, insert_file. cbn. rewrite Hf, Hins. cbn.
  destruct mod_; [|reflexivity].
  unfold utime, with_files. cbn.
  rewrite lookup_insert_eq. cbn. by rewrite insert_insert_eq.
Qed.

(** C3.  An image file whose metadata loads and already has a
    non-empty capture-date-original field is skipped, with the state of
    every file as it was; and when a file that a first step tagged is
    processed again, whatever the mod option, the second step changes
    nothing, provided piexif reads the field back from what it wrote. *)
Theorem tagged_image_is_left_alone
    (reads_back : ∀ d b c c',
        piexif_dump d = Ok b → piexif_insert b c = Ok c' →
        tag_present d DateTimeOriginal = true →
        ∃ d', piexif_load c' = Ok d' ∧ tag_present d' DateTimeOriginal = true)
    (dir fn : string) :
  endswith fn ".jpg" || endswith fn ".jpeg" = true →
  (∀ mod_ st f d rest,
      files st !! path_join dir fn = Some f →
      piexif_load (content f) = Ok d →
      tag_present d DateTimeOriginal = true →
      process_file mod_ st (dir, fn) = Done st
      ∧ run_files mod_ ((dir, fn) :: rest) st = run_files mod_ rest st)
  ∧ (∀ mod1 mod2 st f d date b c,
      is_whatsapp_img fn = true →
      files st !! path_join dir fn = Some f →
      piexif_load (content f) = Ok d →
      tag_present d DateTimeOriginal = false →
      get_datetime fn = Ok date →
      piexif_dump (set_Exif_tag d DateTimeOriginal (VStr (strftime date))) = Ok b →
      piexif_insert b (content f) = Ok c →
      ∃ st1 f1,
        process_file mod1 st (dir, fn) = Done st1
        ∧ files st1 !! path_join dir fn = Some f1 ∧ content f1 = c
        ∧ process_file mod2 st1 (dir, fn) = Done st1).
Proof.
  intros Himg. split.
  - intros mod_ st f d rest Hf Hload Htag.
    pose proof (already_tagged_skip mod_ st dir fn f d Himg Hf Hload Htag) as Hs.
    split; [exact Hs | by apply run_files_cons_done].
  - intros mod1 mod2 st f d date b c Hpat Hf Hload Htag Hdate Hdump Hins.
    destruct (reads_back _ _ _ _ Hdump Hins) as (d' & Hload' & Htag').
    { unfold tag_present, set_Exif_tag. cbn. rewrite lookup_insert_eq. cbn.
      by rewrite strftime_nonempty. }
    eexists _, _. split; [by eapply tag_step|].
    split; [cbn; apply lookup_insert_eq|].
    split; [by destruct mod1|].
    eapply already_tagged_skip; [done| cbn; apply lookup_insert_eq | | done].
    by destruct mod1.
Qed.


(** C5 (amended).  An image file that piexif rejects as invalid image
    data is skipped: the state of every file is as before and the loop
    goes on with the remaining files. *)
Theorem unreadable_image_is_skipped
    (mod_ : bool) (st : state) (dir fn : string) (f : file)
    (rest : list (string * string)) :
  endswith fn ".jpg" || endswith fn ".jpeg" = true →
  files st !! path_join dir fn = Some f →
  piexif_load (content f) = Raise InvalidImageDataError →
  process_file mod_ st (dir, fn) = Done st
  ∧ run_files mod_ ((dir, fn) :: rest) st = run_files mod_ rest st.
Proof.
  intros Himg Hf Hload.
  assert (Hs : process_file mod_ st (dir, fn) = Done st).
  { destruct (is_whatsapp_img fn) eqn:Hpat;
      [|by apply process_image_other_name].
    rewrite process_image by done.
    unfold try_body, load_file. by rewrite Hf, Hload. }
  split; [exact Hs | by apply run_files_cons_done].
Qed.


(** C1 (the code departs from the claim).  When the body of the [try]
    raises [ValueError] for an image with a WhatsApp name, the container
    [make_new_exif] builds is dropped: with [exif_bytes] still unbound the
    step ends the batch with [UnboundLocalError] and the file as it was,
    and otherwise the file receives the bytes left in [exif_bytes] by an
    earlier file. *)
Theorem malformed_metadata_fallback_is_dropped
    (mod_ : bool) (st : state) (dir fn : string) (f : file) (fresh : list byte) :
  endswith fn ".jpg" || endswith fn ".jpeg" = true →
  is_whatsapp_img fn = true →
  files st !! path_join dir fn = Some f →
  try_body st (path_join dir fn) fn = Raise ValueError →
  make_new_exif fn = Ok fresh →
  (exif_bytes st = None →
     process_file mod_ st (dir, fn) = Aborted UnboundLocalError st)
  ∧ (∀ stale c,
       exif_bytes st = Some stale →
       piexif_insert stale (content f) = Ok c →
       ∃ st1 f1,
         process_file mod_ st (dir, fn) = Done st1
         ∧ files st1 !! path_join dir fn = Some f1 ∧ content f1 = c).
Proof.
  intros Himg Hpat Hf Htry Hnew.
  rewrite process_image by done. rewrite Htry, Hnew.
  unfold write_back. split.
  - by intros ->.
  - intros stale c -> Hins. unfold insert_file. rewrite Hf, Hins. cbn.
    destruct mod_.
    + unfold make_new_exif, get_exif_datestr in Hnew.
      destruct (get_datetime fn) as [date|]; [|discriminate].
      unfold utime, with_files. cbn. rewrite lookup_insert_eq.
      eexists _, _. split; [reflexivity|]. cbn.
      split; [apply lookup_insert_eq | reflexivity].
    + eexists _, _. split; [reflexivity|]. cbn.
      split; [apply lookup_insert_eq | reflexivity].
Qed.

End DriverFacts.

(** ** The driver on explicit files *)

Lemma sample_reads_back (d : exif_dict) (b c c' : list byte) :
  Sample.dump d = Ok b → Sample.insert b c = Ok c' →
  tag_present d DateTimeOriginal = true →
  ∃ d', Sample.load c' = Ok d' ∧ tag_present d' DateTimeOriginal = true.
Proof.
  unfold Sample.dump, Sample.insert, tag_present.
  intros Hdump Hins Htag.
  assert (Hc' : c' = x01 :: b) by (destruct c; [discriminate | by injection Hins]).
  subst c'. eexists. split; [reflexivity|]. cbn.
  rewrite lookup_insert_eq.
  destruct (ifd_Exif d !! DateTimeOriginal) as [[s|b0|n|vs]|]; try discriminate.
  - injection Hdump as <-. destruct s; [discriminate | reflexivity].
  - by injection Hdump as <-.
Qed.

Lemma tagged_image_is_left_alone_example :
  let fn := "00000015-PHOTO-2021-04-12-18-24-22.jpg" in
  let tagged :=
    {| content := x01 :: list_byte_of_string "2021:04:12 18:24:22";
       atime := 5; mtime := 7 |} in
  let st0 := {| files := {[ "/media/" +:+ fn := tagged ]}; exif_bytes := None |} in
  let st := {| files := {[ "/media/" +:+ fn := Sample.untagged ]}; exif_bytes := None |} in
  Sample.process_file true st0 ("/media", fn) = Done st0
  ∧ ∃ st1 f1,
      Sample.process_file false st ("/media", fn) = Done st1
      ∧ files st1 !! ("/media/" +:+ fn) = Some f1
      ∧ content f1 = x01 :: list_byte_of_string "2021:04:12 18:24:22"
      ∧ Sample.process_file true st1 ("/media", fn) = Done st1.
Proof.
  intros fn tagged st0 st.
  destruct (tagged_image_is_left_alone (lib := Sample.library) sample_reads_back
              "/media" fn eq_refl) as [Hskip Hagain].
  split.
  - eapply (Hskip true st0 tagged _ []); reflexivity.
  - eapply (Hagain false true st Sample.untagged); reflexivity.
Defined.



Lemma unreadable_image_is_skipped_example :
  let fn := "00000015-PHOTO-2021-04-12-18-24-22.jpg" in
  let other := "00000016-PHOTO-2021-04-13-08-00-01.jpg" in
  let st := {| files := {[ "/media/" +:+ fn := Sample.not_an_image;
                           "/media/" +:+ other := Sample.untagged ]};
               exif_bytes := None |} in
  Sample.process_file false st ("/media", fn) = Done st
  ∧ Sample.run_files false [("/media", fn); ("/media", other)] st
    = Sample.run_files false [("/media", other)] st.
Proof.
  intros fn other st.
  apply (unreadable_image_is_skipped (lib := Sample.library) false st "/media" fn
           Sample.not_an_image [("/media", other)]); reflexivity.
Defined.

(** C5 as it is written fails on a batch of two files: the first, a video
    whose name encodes month 13, ends the batch with [ValueError], and the
    image after it is never reached. *)
Lemma impossible_date_ends_the_batch :
  let bad := "00000003-VIDEO-2020-13-05-09-00-00.mp4" in
  let good := "00000015-PHOTO-2021-04-12-18-24-22.jpg" in
  let root := Directory [(bad, Regular); (good, Regular)] in
  let store : gmap string file :=
    {[ "/media/" +:+ bad := Sample.video; "/media/" +:+ good := Sample.untagged ]} in
  Sample.main "/media" (Some root) false false store
  = Aborted ValueError {| files := store; exif_bytes := None |}
  ∧ ∃ st1, Sample.main "/media" (Some (Directory [(good, Regular)])) false false store
           = Done st1.
Proof. split; [|eexists]; vm_compute; reflexivity. Qed.


Lemma malformed_metadata_fallback_is_dropped_example :
  let fn := "00000015-PHOTO-2021-04-12-18-24-22.jpg" in
  let st := {| files := {[ "/media/" +:+ fn := Sample.malformed ]}; exif_bytes := None |} in
  Sample.process_file false st ("/media", fn) = Aborted UnboundLocalError st.
Proof.
  intros fn st.
  destruct (malformed_metadata_fallback_is_dropped (lib := Sample.library) false st
              "/media" fn Sample.malformed
              (list_byte_of_string "2021:04:12 18:24:22")
              eq_refl eq_refl eq_refl eq_refl eq_refl) as [Hunbound _].
  exact (Hunbound eq_refl).
Defined.

(** The whole program on a directory whose only file has metadata that
    cannot be read, and on one where such a file follows an image that was
    tagged: the second file receives the date of the first. *)
Lemma malformed_metadata_in_main :
  let a := "00000015-PHOTO-2021-04-12-18-24-22.jpg" in
  let b := "00000016-PHOTO-2022-01-01-00-00-00.jpg" in
  let alone : gmap string file := {[ "/media/" +:+ b := Sample.malformed ]} in
  let both : gmap string file :=
    {[ "/media/" +:+ a := Sample.untagged; "/media/" +:+ b := Sample.malformed ]} in
  let date_of_a := list_byte_of_string "2021:04:12 18:24:22" in
  Sample.main "/media" (Some (Directory [(b, Regular)])) false false alone
  = Aborted UnboundLocalError {| files := alone; exif_bytes := None |}
  ∧ Sample.main "/media" (Some (Directory [(a, Regular); (b, Regular)])) false false both
    = Done {| files := {[ "/media/" +:+ a :=
                            {| content := x01 :: date_of_a; atime := 5; mtime := 7 |};
                          "/media/" +:+ b :=
                            {| content := x01 :: date_of_a; atime := 5; mtime := 7 |} ]};
              exif_bytes := Some date_of_a |}.
Proof. vm_compute. done. Qed.

(** * Further properties *)

(** ** Filename classifier *)

Lemma re_match_times (n : nat) (c : charclass) (r : regex) (s : string) :
  re_match (Times n c :: r) s
  = match eat n c s with Some s' => re_match r s' | None => false end.
Proof. reflexivity. Qed.

Lemma patterns_differ (fn : string) :
  is_whatsapp_img fn = true → is_whatsapp_vid fn = false.
Proof.
  unfold is_whatsapp_img, is_whatsapp_vid, img_filename_regex, vid_filename_regex, lits.
  cbn [app map list_ascii_of_string]. rewrite !re_match_times.
  destruct (eat 8 Digit fn) as [s1|]; [|done]. rewrite !re_match_times.
  destruct (eat 1 (Lit "-") s1) as [s2|]; [|done]. rewrite !re_match_times.
  destruct s2 as [|a s2]; [done|]. cbn [eat class_matches].
  destruct (Ascii.eqb_spec a "P") as [->|]; [reflexivity|discriminate].
Qed.

(** X1.  No name matches both the image and the video pattern. *)
Theorem patterns_are_exclusive (fn : string) :
  is_whatsapp_img fn && is_whatsapp_vid fn = false.
Proof.
  destruct (is_whatsapp_img fn) eqn:Himg; [|reflexivity].
  by apply patterns_differ.
Qed.

Lemma re_match_times_step (n : nat) (c : charclass) (r : regex) (a : ascii) (s : string) :
  class_matches c a = true →
  re_match (Times (S n) c :: r) (String a s) = re_match (Times n c :: r) s.
Proof. intros Hc. cbn [re_match eat]. by rewrite Hc. Qed.

Lemma re_match_plus_last (c : charclass) (a : ascii) (s : string) :
  class_matches c a = true → re_match [Plus c] (String a s) = true.
Proof.
  intros Hc. cbn [re_match]. rewrite Hc. destruct s; cbn; [reflexivity|].
  apply orb_true_r.
Qed.

Lemma re_match_plus_first (c : charclass) (r : regex) (s : string) :
  re_match (Plus c :: r) s = true →
  ∃ a s', s = String a s' ∧ class_matches c a = true.
Proof.
  cbn [re_match]. destruct s as [|a s]; [discriminate|].
  destruct (class_matches c a) eqn:Hc; [|discriminate].
  intros _. by exists a, s.
Qed.

Lemma digits_O (s : string) : digits 0 s = true → s = EmptyString.
Proof. by destruct s. Qed.

Lemma digits_S (n : nat) (s : string) :
  digits (S n) s = true →
  ∃ a s', s = String a s' ∧ is_digit a = true ∧ digits n s' = true.
Proof.
  unfold digits. destruct s as [|a s]; [discriminate|].
  cbn [String.length Nat.eqb list_ascii_of_string forallb].
  rewrite !andb_true_iff. intros (Hlen & Ha & Hs).
  exists a, s. by rewrite Hlen, Hs.
Qed.

(** Reads one of the two patterns off a name, up to the character after
    the dot. *)
Ltac read_stamp_and_dot H :=
  read_char H q1 Hq1; read_char H q2 Hq2; read_char H q3 Hq3; read_char H q4 Hq4;
  read_char H q5 Hq5; read_char H q6 Hq6; read_char H q7 Hq7; read_char H q8 Hq8;
  do 7 read_lit H;
  read_char H y1 Hy1; read_char H y2 Hy2; read_char H y3 Hy3; read_char H y4 Hy4;
  read_lit H; read_char H m1 Hm1; read_char H m2 Hm2;
  read_lit H; read_char H d1 Hd1; read_char H d2 Hd2;
  read_lit H; read_char H h1 Hh1; read_char H h2 Hh2;
  read_lit H; read_char H n1 Hn1; read_char H n2 Hn2;
  read_lit H; read_char H s1 Hs1; read_char H s2 Hs2;
  read_lit H.

Ltac split_digits H :=
  repeat (let a := fresh "a" in
          let Ha := fresh "Ha" in
          apply digits_S in H as (a & ? & -> & Ha & H));
  apply digits_O in H; subst.

Ltac match_steps :=
  repeat first
    [ rewrite re_match_times_O
    | rewrite re_match_times_step
        by (cbn [class_matches];
            first [assumption | reflexivity | apply Ascii.eqb_refl]) ].

#[local] Arguments String.append : simpl nomatch.

Lemma stamped_of_match (kind : string) (fn : string) :
  String.length kind = 5%nat →
  re_match ([Times 8 Digit] ++ lits ("-" +:+ kind +:+ "-") ++ date_pattern) fn = true →
  stamped kind fn.
Proof.
  intros Hkind H.
  destruct kind as [|k1 [|k2 [|k3 [|k4 [|k5 [|]]]]]]; try discriminate.
  unfold date_pattern, lits in H.
  cbn [String.append app map list_ascii_of_string] in H.
  read_stamp_and_dot H.
  apply re_match_plus_first in H as (c & ext & -> & Hc).
  exists (String q1 (String q2 (String q3 (String q4 (String q5 (String q6
            (String q7 (String q8 EmptyString)))))))),
    (String y1 (String y2 (String y3 (String y4 EmptyString)))),
    (String m1 (String m2 EmptyString)), (String d1 (String d2 EmptyString)),
    (String h1 (String h2 EmptyString)), (String n1 (String n2 EmptyString)),
    (String s1 (String s2 EmptyString)), c, ext.
  split; [reflexivity|]. unfold digits.
  cbn [String.length Nat.eqb list_ascii_of_string forallb andb].
  rewrite Hq1, Hq2, Hq3, Hq4, Hq5, Hq6, Hq7, Hq8, Hy1, Hy2, Hy3, Hy4, Hm1, Hm2,
    Hd1, Hd2, Hh1, Hh2, Hn1, Hn2, Hs1, Hs2.
  split_and!; try reflexivity.
  cbn [class_matches] in Hc. apply negb_true_iff, Ascii.eqb_neq in Hc. exact Hc.
Qed.

Lemma match_of_stamped (kind : string) (fn : string) :
  String.length kind = 5%nat →
  stamped kind fn →
  re_match ([Times 8 Digit] ++ lits ("-" +:+ kind +:+ "-") ++ date_pattern) fn = true.
Proof.
  intros Hkind (seq & y & mo & d & h & mi & s & c & ext & -> & Hseq & Hy & Hmo & Hd
                & Hh & Hmi & Hs & Hc).
  destruct kind as [|k1 [|k2 [|k3 [|k4 [|k5 [|]]]]]]; try discriminate.
  split_digits Hseq. split_digits Hy. split_digits Hmo. split_digits Hd.
  split_digits Hh. split_digits Hmi. split_digits Hs.
  unfold date_pattern, lits.
  cbn [String.append app map list_ascii_of_string].
  match_steps.
  apply re_match_plus_last. cbn [class_matches].
  by apply negb_true_iff, Ascii.eqb_neq.
Qed.


#[local] Arguments String.append : simpl never.

(** ** Filename parser *)

Lemma re_split_length (s : string) :
  List.length (re_split s) = S (separators s).
Proof.
  induction s as [|a s IH]; [reflexivity|].
  cbn [re_split separators]. destruct (is_sep a); cbn [List.length].
  - by rewrite IH.
  - destruct (re_split s); [discriminate|]. cbn [List.length] in *. lia.
Qed.

(** X3.  A name with fewer than two of the characters [.] and [-] has no
    third token: the parser is given the empty string and raises
    [ValueError], and so does the formatter of the tag. *)
Theorem name_with_too_few_separators (fn : string) :
  (separators fn < 2)%nat →
  get_datetime fn = Raise ValueError ∧ get_exif_datestr fn = Raise ValueError.
Proof.
  intros Hsep.
  assert (Hdt : get_datetime fn = Raise ValueError).
  { unfold get_datetime, slice.
    rewrite drop_ge by (rewrite re_split_length; lia). reflexivity. }
  split; [exact Hdt|]. unfold get_exif_datestr. by rewrite Hdt.
Qed.

Lemma name_with_too_few_separators_example :
  get_datetime "randomfile.jpg" = Raise ValueError
  ∧ get_exif_datestr "randomfile.jpg" = Raise ValueError.
Proof.
  apply (name_with_too_few_separators "randomfile.jpg"). cbn. lia.
Defined.

Lemma separators_none (s : string) :
  separators s = O →
  forallb (fun a => negb (is_sep a)) (list_ascii_of_string s) = true.
Proof.
  induction s as [|a s IH]; [reflexivity|].
  cbn [separators list_ascii_of_string forallb].
  destruct (is_sep a); [discriminate|]. exact IH.
Qed.

(** X4.  The first two tokens of a name, and which of [.] and [-] ends
    them, have no part in the result of the parser: two names that agree
    after their second separator parse alike. *)
Theorem parser_skips_two_tokens
    (seq kind seq' kind' rest : string) (c1 c2 c1' c2' : ascii) :
  separators seq = O → separators kind = O →
  separators seq' = O → separators kind' = O →
  is_sep c1 = true → is_sep c2 = true → is_sep c1' = true → is_sep c2' = true →
  get_datetime (seq +:+ String c1 (kind +:+ String c2 rest))
  = get_datetime (seq' +:+ String c1' (kind' +:+ String c2' rest)).
Proof.
  intros Hs Hk Hs' Hk' H1 H2 H1' H2'. unfold get_datetime.
  rewrite !re_split_token by (first [by apply separators_none | assumption]).
  reflexivity.
Qed.

Lemma parser_skips_two_tokens_example :
  get_datetime "00000015-PHOTO-2021-04-12-18-24-22.jpg"
  = get_datetime "x.y-2021-04-12-18-24-22.jpg".
Proof.
  apply (parser_skips_two_tokens "00000015" "PHOTO" "x" "y"
           "2021-04-12-18-24-22.jpg" "-" "-" "." "-"); reflexivity.
Defined.

Lemma strptime_valid (s : string) (dt : datetime) :
  strptime s = Ok dt →
  valid_datetime (year dt) (month dt) (day dt) (hour dt) (minute dt) (second dt) = true.
Proof.
  unfold strptime. destruct s as [|a [|b [|c [|d r]]]]; try discriminate.
  destruct (is_digit a && is_digit b && is_digit c && is_digit d); [|discriminate].
  destruct (match_fields time_directives r) as [[vs r']|]; [|discriminate].
  destruct vs as [|? [|? [|? [|? [|? [|]]]]]]; try discriminate.
  destruct r'; [|discriminate]. unfold make_datetime.
  destruct (valid_datetime _ _ _ _ _ _) eqn:Hv; [|discriminate].
  by intros [= <-].
Qed.

Lemma digit_char_is_digit (k : Z) : 0 ≤ k ≤ 9 → is_digit (digit_char k) = true.
Proof.
  intros Hk.
  assert (Hc : k = 0 ∨ k = 1 ∨ k = 2 ∨ k = 3 ∨ k = 4 ∨ k = 5 ∨ k = 6 ∨ k = 7
               ∨ k = 8 ∨ k = 9) by lia.
  repeat (destruct Hc as [->|Hc]; [reflexivity|]). by subst.
Qed.

Ltac digit_in_range :=
  apply digit_char_is_digit; Z.div_mod_to_equations; lia.

#[local] Arguments String.append : simpl nomatch.


#[local] Arguments String.append : simpl never.


(** ** Extension filter and dispatch *)

#[local] Arguments String.append : simpl nomatch.

Lemma append_empty_r (s : string) : s +:+ "" = s.
Proof. induction s as [|a s IH]; cbn [String.append]; by rewrite ?IH. Qed.

Lemma append_associative (a b c : string) : (a +:+ b) +:+ c = a +:+ (b +:+ c).
Proof. induction a as [|x a IH]; cbn [String.append]; by rewrite ?IH. Qed.

Lemma rev_app_accumulator (s acc : string) :
  String.rev_app s acc = String.rev_app s "" +:+ acc.
Proof.
  revert acc. induction s as [|a s IH]; intros acc; cbn [String.rev_app]; [done|].
  rewrite IH, (IH (String a "")), append_associative. reflexivity.
Qed.

Lemma rev_app_append (a b acc : string) :
  String.rev_app (a +:+ b) acc = String.rev_app b (String.rev_app a acc).
Proof.
  revert acc. induction a as [|x a IH]; intros acc;
    cbn [String.append String.rev_app]; [reflexivity|apply IH].
Qed.

Lemma rev_append (a b : string) :
  String.rev (a +:+ b) = String.rev b +:+ String.rev a.
Proof. unfold String.rev. by rewrite rev_app_append, rev_app_accumulator. Qed.

Lemma startswith_append (p s : string) : startswith (p +:+ s) p = true.
Proof.
  induction p as [|a p IH]; cbn [String.append].
  - by destruct s.
  - cbn [startswith]. by rewrite Ascii.eqb_refl, IH.
Qed.

Lemma endswith_append (s suffix : string) : endswith (s +:+ suffix) suffix = true.
Proof. unfold endswith. rewrite rev_append. apply startswith_append. Qed.

Lemma substring_whole (s : string) : substring 0 (String.length s) s = s.
Proof. induction s as [|a s IH]; cbn; by rewrite ?IH. Qed.

Lemma substring_cut (d : nat) (s : string) :
  substring 0 d s +:+ substring d (String.length s - d) s = s.
Proof.
  revert d. induction s as [|a s IH]; intros [|d]; try reflexivity.
  - cbn [substring String.length Nat.sub String.append].
    by rewrite substring_whole.
  - cbn [substring String.length Nat.sub String.append]. by rewrite IH.
Qed.

(** The two parts [splitext] returns make up the path. *)
Lemma splitext_join (p : string) : (splitext p).1 +:+ (splitext p).2 = p.
Proof.
  unfold splitext. destruct (_ && _); cbn [fst snd].
  - apply substring_cut.
  - apply append_empty_r.
Qed.

#[local] Arguments String.append : simpl never.

Lemma video_name_is_no_image (fn : string) :
  endswith fn ".mp4" || endswith fn ".3gp" = true →
  endswith fn ".jpg" || endswith fn ".jpeg" = false.
Proof.
  unfold endswith. cbn [String.rev String.rev_app].
  destruct (String.rev fn) as [|a r]; [done|]. cbn [startswith].
  destruct (Ascii.eqb_spec a "g") as [->|Hg]; [|reflexivity].
  cbn [andb orb]. discriminate.
Qed.

(** X6.  A name the extension filter lets through ends in its extension,
    so the loop takes the video branch exactly for the extensions [.mp4]
    and [.3gp] and the image branch exactly for [.jpg] and [.jpeg]; no
    included file falls through both tests. *)
Theorem included_file_reaches_its_branch (fn : string) :
  (splitext fn).2 ∈ allowed_extensions →
  endswith fn ".mp4" || endswith fn ".3gp"
  = bool_decide ((splitext fn).2 ∈ [".mp4"; ".3gp"])
  ∧ endswith fn ".jpg" || endswith fn ".jpeg"
    = bool_decide ((splitext fn).2 ∈ [".jpg"; ".jpeg"]).
Proof.
  intros Hext. pose proof (splitext_join fn) as Hjoin.
  assert (Hend : endswith fn (splitext fn).2 = true).
  { rewrite <- Hjoin at 1. apply endswith_append. }
  unfold allowed_extensions in Hext.
  apply elem_of_union in Hext as [Hext|Hext];
    [apply elem_of_union in Hext as [Hext|Hext];
     [apply elem_of_union in Hext as [Hext|Hext]|]|];
    apply elem_of_singleton in Hext; rewrite Hext in Hend |- *.
  - assert (Hv : endswith fn ".mp4" || endswith fn ".3gp" = true) by by rewrite Hend.
    by rewrite Hv, (video_name_is_no_image _ Hv).
  - assert (Hi : endswith fn ".jpg" || endswith fn ".jpeg" = true) by by rewrite Hend.
    by rewrite Hi, (image_name_is_no_video _ Hi).
  - assert (Hv : endswith fn ".mp4" || endswith fn ".3gp" = true)
      by (rewrite Hend; apply orb_true_r).
    by rewrite Hv, (video_name_is_no_image _ Hv).
  - assert (Hi : endswith fn ".jpg" || endswith fn ".jpeg" = true)
      by (rewrite Hend; apply orb_true_r).
    by rewrite Hi, (image_name_is_no_video _ Hi).
Qed.

Lemma included_file_reaches_its_branch_example :
  endswith "clip.3gp" ".mp4" || endswith "clip.3gp" ".3gp"
  = bool_decide ((splitext "clip.3gp").2 ∈ [".mp4"; ".3gp"])
  ∧ endswith "clip.3gp" ".jpg" || endswith "clip.3gp" ".jpeg"
    = bool_decide ((splitext "clip.3gp").2 ∈ [".jpg"; ".jpeg"]).
Proof.
  apply (included_file_reaches_its_branch "clip.3gp").
  unfold allowed_extensions. set_solver.
Defined.

(** ** File enumerator *)

Lemma walk_subdirectory (top d : string) (entries : list (string * node)) (sub : node)
    (t : string * list string * list string) :
  (d, sub) ∈ entries → is_directory sub = true →
  t ∈ walk (path_join top d) sub → t ∈ walk top (Directory entries).
Proof.
  intros Hin Hdir Ht. cbn [walk]. apply elem_of_cons. right.
  induction entries as [|[name n] entries IH]; [by apply elem_of_nil in Hin|].
  apply elem_of_cons in Hin as [[= <- <-]|Hin]; apply elem_of_app.
  - left. by rewrite Hdir.
  - right. by apply IH.
Qed.

Lemma in_filenames_of (entries : list (string * node)) (f : string) (n : node) :
  (f, n) ∈ entries → is_directory n = false → f ∈ filenames_of entries.
Proof.
  intros Hin Hn. unfold filenames_of.
  apply list_elem_of_In, in_map_iff. exists (f, n). split; [reflexivity|].
  apply filter_In. split; [by apply list_elem_of_In|]. cbn. by rewrite Hn.
Qed.

Lemma child_regular (entries : list (string * node)) (f : string) :
  child (Directory entries) f = Some Regular → (f, Regular) ∈ entries.
Proof.
  cbn [child]. destruct (List.find _ entries) as [[name n]|] eqn:Hfind; [|discriminate].
  cbn. intros [= ->]. apply find_some in Hfind as [Hin Heq]. cbn in Heq.
  apply String.eqb_eq in Heq as ->. by apply list_elem_of_In.
Qed.

Section EnumeratorMore.

Variable abspath : string → string.

Lemma recursive_top (path : string) (entries : list (string * node)) (f : string) :
  f ∈ filenames_of entries → not_ignored f = true →
  ∀ l, get_filepaths abspath path (Directory entries) true = Ok l →
       (abspath path, f) ∈ l.
Proof.
  intros Hf Hok l [= <-]. cbn [walk map concat]. apply elem_of_app. left.
  apply list_elem_of_In, in_map_iff. exists f. split; [reflexivity|].
  apply filter_In. split; [by apply list_elem_of_In | exact Hok].
Qed.

(** X7.  What the enumeration of a directory returns without the
    recursive option it also returns with it. *)
Theorem flat_enumeration_within_recursive
    (path : string) (entries : list (string * node)) :
  ∃ flat deep,
    get_filepaths abspath path (Directory entries) false = Ok flat
    ∧ get_filepaths abspath path (Directory entries) true = Ok deep
    ∧ ∀ e, e ∈ flat → e ∈ deep.
Proof.
  eexists _, _. split; [reflexivity|]. split; [reflexivity|].
  intros e He. apply list_elem_of_In, in_map_iff in He as (f & <- & Hf).
  apply filter_In in Hf as [_ Hf]. apply andb_true_iff in Hf as [Hfile Hok].
  eapply recursive_top; [|exact Hok|reflexivity].
  apply (in_filenames_of entries f Regular); [|reflexivity]. apply child_regular.
  by destruct (child (Directory entries) f) as [[]|].
Qed.

(** X8.  With the recursive option there is no test for a regular file:
    every direct child of the root that is no directory and whose name is
    not ignored is returned, be it a regular file or not. *)
Theorem recursive_enumeration_lists_non_directories
    (path : string) (entries : list (string * node)) (f : string) (n : node) :
  (f, n) ∈ entries → is_directory n = false → not_ignored f = true →
  ∃ deep, get_filepaths abspath path (Directory entries) true = Ok deep
          ∧ (abspath path, f) ∈ deep.
Proof.
  intros Hin Hn Hok. eexists. split; [reflexivity|].
  eapply recursive_top; [|exact Hok|reflexivity]. by eapply in_filenames_of.
Qed.


End EnumeratorMore.

Lemma recursive_enumeration_lists_non_directories_example :
  ∃ deep, get_filepaths (fun p => p) "/media"
            (Directory [("a.jpg", Regular); ("pipe.jpg", Special)]) true = Ok deep
          ∧ ("/media", "pipe.jpg") ∈ deep.
Proof.
  apply (recursive_enumeration_lists_non_directories (fun p => p) "/media"
           [("a.jpg", Regular); ("pipe.jpg", Special)] "pipe.jpg" Special);
    [|reflexivity|reflexivity].
  apply elem_of_cons. right. apply elem_of_cons. by left.
Defined.


(** ** Per-file driver: what a step can and cannot change *)

Lemma datestr_gives_datetime (fn tag : string) :
  get_exif_datestr fn = Ok tag → ∃ date, get_datetime fn = Ok date.
Proof.
  unfold get_exif_datestr. destruct (get_datetime fn) as [date|]; [eauto|discriminate].
Qed.

Section DriverMore.

Context `{lib : Library}.

Lemma write_back_effect mod_ st filepath filename date :
  get_datetime filename = Ok date →
  step_effect filepath st (write_back mod_ st filepath filename)
  ∧ exif_bytes (final (write_back mod_ st filepath filename)) = exif_bytes st.
Proof.
  intros Hdate. unfold write_back, insert_file.
  destruct (exif_bytes st) as [b|] eqn:Hb; [|by split; [left|]].
  destruct (files st !! filepath) as [f|] eqn:Hf; [|by split; [left|]].
  destruct (piexif_insert b (content f)) as [c|]; [|by split; [left|]].
  cbn [mbind result_bind]. destruct mod_; [|split; [right; by eexists _, _|done]].
  rewrite Hdate. unfold utime, with_files. cbn [files].
  rewrite lookup_insert_eq. cbn [final files exif_bytes].
  split; [|done]. right. eexists _, _. split; [reflexivity|]. split; [exact Hf|].
  cbn [final files]. by rewrite insert_insert_eq.
Qed.

Lemma try_body_datetime st filepath filename b :
  try_body st filepath filename = Ok (Some b) → ∃ date, get_datetime filename = Ok date.
Proof.
  unfold try_body. destruct (load_file st filepath) as [d|]; [|discriminate].
  cbn [mbind result_bind]. destruct (tag_present d DateTimeOriginal); [discriminate|].
  destruct (get_exif_datestr filename) as [tag|] eqn:Htag; [|discriminate].
  intros _. by eapply datestr_gives_datetime.
Qed.

Lemma process_file_effect mod_ st dir fn :
  step_effect (path_join dir fn) st (process_file mod_ st (dir, fn))
  ∧ (is_Some (exif_bytes st) →
     is_Some (exif_bytes (final (process_file mod_ st (dir, fn))))).
Proof.
  unfold process_file.
  destruct (endswith fn ".mp4" || endswith fn ".3gp").
  { destruct (is_whatsapp_vid fn); cbn [negb]; [|by split; [left|]].
    destruct (get_datetime fn) as [date|]; [|by split; [left|]].
    unfold utime. destruct (files st !! path_join dir fn) as [f|] eqn:Hf;
      [|by split; [left|]].
    split; [|done]. right. by eexists _, _. }
  destruct (endswith fn ".jpg" || endswith fn ".jpeg"); [|by split; [left|]].
  destruct (is_whatsapp_img fn); cbn [negb]; [|by split; [left|]].
  destruct (try_body st (path_join dir fn) fn) as [[b|]|e] eqn:Htry.
  - destruct (try_body_datetime _ _ _ _ Htry) as [date Hdate].
    destruct (write_back_effect mod_ (with_exif_bytes st b) (path_join dir fn) fn date
                Hdate) as [Heff Hb].
    split; [exact Heff|]. intros _. rewrite Hb. by eexists.
  - by split; [left|].
  - destruct e; try by split; [left|].
    unfold make_new_exif.
    destruct (get_exif_datestr fn) as [tag|] eqn:Htag; [|by split; [left|]].
    cbn [mbind result_bind].
    destruct (piexif_dump _) as [fresh|]; [|by split; [left|]].
    destruct (datestr_gives_datetime _ _ Htag) as [date Hdate].
    destruct (write_back_effect mod_ st (path_join dir fn) fn date Hdate)
      as [Heff Hb].
    split; [exact Heff|]. by rewrite Hb.
Qed.

Lemma step_effect_touches_only filepath st o :
  step_effect filepath st o → touches_only filepath st (final o).
Proof.
  intros [Hsame|(f & f' & _ & Hf & Hnew)]; unfold touches_only.
  - by rewrite Hsame.
  - rewrite Hnew. split.
    + intros p Hp. by apply lookup_insert_ne.
    + apply dom_insert_lookup_L. by eexists.
Qed.


Lemma run_files_touches mod_ l st :
  (∀ p, (∀ e, e ∈ l → path_join e.1 e.2 ≠ p) →
        files (final (run_files mod_ l st)) !! p = files st !! p)
  ∧ dom (files (final (run_files mod_ l st))) = dom (files st)
  ∧ (is_Some (exif_bytes st) → is_Some (exif_bytes (final (run_files mod_ l st)))).
Proof.
  revert st. induction l as [|[dir fn] l IH]; intros st; [done|].
  cbn [run_files].
  destruct (process_file_effect mod_ st dir fn) as [Heff Hb].
  apply step_effect_touches_only in Heff as [Hframe Hdom].
  destruct (process_file mod_ st (dir, fn)) as [st1|x st1]; cbn [final] in *.
  - destruct (IH st1) as (IHframe & IHdom & IHb). split_and!.
    + intros p Hp. rewrite IHframe, Hframe; [done| |].
      * intros ->. apply (Hp (dir, fn)); [apply elem_of_cons; by left | reflexivity].
      * intros e He. apply Hp, elem_of_cons. by right.
    + by rewrite IHdom.
    + intros Hs. by apply IHb, Hb.
  - split_and!; [|done|done].
    intros p Hp. apply Hframe. intros ->.
    apply (Hp (dir, fn)); [apply elem_of_cons; by left | reflexivity].
Qed.


(** X12.  Once [exif_bytes] is bound it stays bound to the end of the
    loop: the variable is never unbound again by a later file. *)
Theorem exif_bytes_stays_bound
    (mod_ : bool) (filepaths : list (string * string)) (st : state) :
  is_Some (exif_bytes st) →
  is_Some (exif_bytes (final (run_files mod_ filepaths st))).
Proof. by destruct (run_files_touches mod_ filepaths st) as (_ & _ & Hb). Qed.

Variable abspath : string → string.


End DriverMore.

Section DriverSteps.

Context `{lib : Library}.

(** X14.  A video step that ends normally is idempotent: run again on the
    state it left, with either setting of the mod option, it leaves that
    state. *)
Theorem video_step_is_idempotent
    (mod1 mod2 : bool) (st st1 : state) (dir fn : string) :
  endswith fn ".mp4" || endswith fn ".3gp" = true →
  process_file mod1 st (dir, fn) = Done st1 →
  process_file mod2 st1 (dir, fn) = Done st1.
Proof.
  intros Hvid. unfold process_file. rewrite Hvid.
  destruct (is_whatsapp_vid fn); cbn [negb]; [|by intros [= <-]].
  destruct (get_datetime fn) as [date|]; [|discriminate].
  unfold utime. destruct (files st !! path_join dir fn) as [f|]; [|discriminate].
  intros [= <-]. unfold with_files. cbn [files exif_bytes].
  rewrite lookup_insert_eq. by rewrite insert_insert_eq.
Qed.

(** X15.  The kind written in the name has to agree with the extension: a
    name that matches the image pattern but ends in [.mp4] or [.3gp] is
    skipped, and so is a name that matches the video pattern but ends in
    [.jpg] or [.jpeg]. *)
Theorem mismatched_kind_is_skipped
    (mod_ : bool) (st : state) (dir fn : string) :
  (endswith fn ".mp4" || endswith fn ".3gp" = true → is_whatsapp_img fn = true →
   process_file mod_ st (dir, fn) = Done st)
  ∧ (endswith fn ".jpg" || endswith fn ".jpeg" = true → is_whatsapp_vid fn = true →
     process_file mod_ st (dir, fn) = Done st).
Proof.
  split.
  - intros Hvid Hpat. unfold process_file.
    by rewrite Hvid, (patterns_differ _ Hpat).
  - intros Himg Hpat. apply process_image_other_name; [exact Himg|].
    destruct (is_whatsapp_img fn) eqn:Hi; [|reflexivity].
    by rewrite (patterns_differ _ Hi) in Hpat.
Qed.


(** X17.  On the way that tags an image, what is handed to [piexif.dump]
    is the loaded metadata with the one field set: every other field of
    the Exif directory, the other directories and the thumbnail are those
    that were loaded. *)
Theorem tagging_keeps_other_metadata
    (st : state) (filepath filename : string) (b : list byte) :
  try_body st filepath filename = Ok (Some b) →
  ∃ loaded tag dumped,
    load_file st filepath = Ok loaded
    ∧ get_exif_datestr filename = Ok tag
    ∧ piexif_dump dumped = Ok b
    ∧ ifd_Exif dumped !! DateTimeOriginal = Some (VStr tag)
    ∧ (∀ t, t ≠ DateTimeOriginal → ifd_Exif dumped !! t = ifd_Exif loaded !! t)
    ∧ ifd_0th dumped = ifd_0th loaded ∧ ifd_GPS dumped = ifd_GPS loaded
    ∧ ifd_Interop dumped = ifd_Interop loaded ∧ ifd_1st dumped = ifd_1st loaded
    ∧ thumbnail dumped = thumbnail loaded.
Proof.
  unfold try_body. destruct (load_file st filepath) as [d|]; [|discriminate].
  cbn [mbind result_bind]. destruct (tag_present d DateTimeOriginal); [discriminate|].
  destruct (get_exif_datestr filename) as [tag|]; [|discriminate].
  cbn [mbind result_bind].
  destruct (piexif_dump (set_Exif_tag d DateTimeOriginal (VStr tag))) as [b'|] eqn:Hdump;
    [|discriminate].
  intros [= <-]. exists d, tag, (set_Exif_tag d DateTimeOriginal (VStr tag)).
  split_and!; try reflexivity.
  - exact Hdump.
  - cbn. apply lookup_insert_eq.
  - intros t Ht. cbn. by apply lookup_insert_ne.
Qed.

End DriverSteps.


Lemma exif_bytes_stays_bound_example :
  let a := "00000015-PHOTO-2021-04-12-18-24-22.jpg" in
  let b := "00000016-PHOTO-2022-01-01-00-00-00.jpg" in
  let st := {| files := {[ "/media/" +:+ a := Sample.untagged;
                           "/media/" +:+ b := Sample.malformed ]};
               exif_bytes := Some [x2a] |} in
  is_Some (exif_bytes (final (Sample.run_files false [("/media", a); ("/media", b)] st))).
Proof.
  intros a b st.
  apply (exif_bytes_stays_bound (lib := Sample.library)). by eexists.
Defined.

Lemma video_step_is_idempotent_example :
  let fn := "00000003-VIDEO-2020-01-05-09-00-00.mp4" in
  let st1 := {| files := {[ "/media/" +:+ fn :=
                              {| content := content Sample.video;
                                 atime := 1578214800; mtime := 1578214800 |} ]};
                exif_bytes := None |} in
  Sample.process_file true st1 ("/media", fn) = Done st1.
Proof.
  intros fn st1.
  apply (video_step_is_idempotent (lib := Sample.library) false true
           {| files := {[ "/media/" +:+ fn := Sample.video ]}; exif_bytes := None |}
           st1 "/media" fn eq_refl).
  vm_compute. reflexivity.
Defined.

Lemma mismatched_kind_is_skipped_example :
  let fn := "00000015-PHOTO-2021-04-12-18-24-22.mp4" in
  let st := {| files := {[ "/media/" +:+ fn := Sample.video ]}; exif_bytes := None |} in
  Sample.process_file true st ("/media", fn) = Done st.
Proof.
  intros fn st.
  exact (proj1 (mismatched_kind_is_skipped (lib := Sample.library) true st "/media" fn)
           eq_refl eq_refl).
Defined.


Lemma tagging_keeps_other_metadata_example :
  let fn := "00000015-PHOTO-2021-04-12-18-24-22.jpg" in
  let st := {| files := {[ "/media/" +:+ fn := Sample.untagged ]}; exif_bytes := None |} in
  ∃ loaded tag dumped,
    load_file (lib := Sample.library) st ("/media/" +:+ fn) = Ok loaded
    ∧ get_exif_datestr fn = Ok tag
    ∧ Sample.dump dumped = Ok (list_byte_of_string "2021:04:12 18:24:22")
    ∧ ifd_Exif dumped !! DateTimeOriginal = Some (VStr tag)
    ∧ (∀ t, t ≠ DateTimeOriginal → ifd_Exif dumped !! t = ifd_Exif loaded !! t)
    ∧ ifd_0th dumped = ifd_0th loaded ∧ ifd_GPS dumped = ifd_GPS loaded
    ∧ ifd_Interop dumped = ifd_Interop loaded ∧ ifd_1st dumped = ifd_1st loaded
    ∧ thumbnail dumped = thumbnail loaded.
Proof.
  intros fn st.
  exact (tagging_keeps_other_metadata (lib := Sample.library) st ("/media/" +:+ fn) fn
           (list_byte_of_string "2021:04:12 18:24:22") eq_refl).
Defined.

(** ** Enumeration without repeats *)

Lemma NoDup_filter_list {A} (p : A → bool) (l : list A) :
  NoDup l → NoDup (List.filter p l).
Proof.
  induction 1 as [|x l Hx Hl IH]; cbn; [constructor|].
  destruct (p x); [|exact IH]. constructor; [|exact IH].
  intros Hin. apply Hx. apply list_elem_of_In in Hin.
  apply filter_In in Hin as [Hin _]. by apply list_elem_of_In.
Qed.

(** X18.  When the names in the root directory are distinct, the
    enumeration without the recursive option returns no entry twice, and
    neither does the included list: each file gets one turn in the loop. *)
Theorem flat_enumeration_has_no_repeats
    (abspath : string → string) (path : string) (entries : list (string * node)) :
  NoDup (map fst entries) →
  ∃ flat,
    get_filepaths abspath path (Directory entries) false = Ok flat
    ∧ NoDup flat ∧ NoDup (filter_filepaths flat allowed_extensions).
Proof.
  intros Hnames. eexists. split; [reflexivity|].
  match goal with |- NoDup ?l ∧ _ => assert (Hl : NoDup l) end.
  { cbn [listdir]. apply NoDup_fmap_2; [by intros ?? [=]|].
    by apply NoDup_filter_list. }
  split; [exact Hl|]. by apply NoDup_filter_list.
Qed.

Lemma flat_enumeration_has_no_repeats_example :
  ∃ flat,
    get_filepaths (fun p => p) "/media"
      (Directory [("a.jpg", Regular); ("b.mp4", Regular); ("notes.txt", Regular)]) false
    = Ok flat
    ∧ NoDup flat ∧ NoDup (filter_filepaths flat allowed_extensions).
Proof.
  apply (flat_enumeration_has_no_repeats (fun p => p) "/media"
           [("a.jpg", Regular); ("b.mp4", Regular); ("notes.txt", Regular)]).
  cbn. repeat constructor; set_solver.
Defined.
